(** * KursarScript (KSPL): a shallow embedding of the compiler and of the
    interpreter, and the properties checked against them.

    Sources embedded here:
    - [kursarscipt-compiler.py]: [KSPLCompiler.tokenize], [KSPLCompiler.parse],
      [KSPLCompiler.generate_code], [KSPLCompiler.compile];
    - [kursarscript-interpreter.py]: [KSPLInterpreter] (parsing, expression
      and statement evaluation, [run]), [KSPLClass], [KSPLObject].

    Conventions.  A Python [str] is a Rocq [string]; its characters are the
    code points 0..255 (source text outside Latin-1 is not covered).  Python
    [dict]s keyed by strings are [gmap string _].  Mutable Python objects
    that the program shares (instances, class objects, the closure cells of
    [run]) live in explicit stores inside the interpreter state and values
    refer to them by index. *)

From Stdlib Require Import ZArith Lia Ascii String List Bool Sorted.
From stdpp Require Import base option list gmap strings.

Local Open Scope Z_scope.

(* ================================================================== *)
(** * Python string primitives *)
(* ================================================================== *)

Module Py.

(** The double quote and the line feed, built from their codes. *)
Definition dquote : ascii := ascii_of_nat 34.
Definition squote : ascii := ascii_of_nat 39.
Definition newline : ascii := ascii_of_nat 10.

Definition code (c : ascii) : N := N_of_ascii c.

Definition between (lo hi : N) (c : ascii) : bool :=
  ((lo <=? code c) && (code c <=? hi))%N.

(** [str.isspace] and the regex class [\s] on code points below 256:
    TAB..CR, FS..US, space, NEL and NBSP. *)
Definition isspace (c : ascii) : bool :=
  between 9 13 c || between 28 32 c || between 133 133 c || between 160 160 c.

(** The regex class [\d] on code points below 256. *)
Definition isdigit (c : ascii) : bool := between 48 57 c.

(** The regex class [\w]: alphanumeric code points and the underscore.
    Below 256 the alphanumerics are the ASCII letters and digits, the
    Latin-1 letters, the ordinal indicators, micro, the superscript digits
    and the vulgar fractions. *)
Definition isword (c : ascii) : bool :=
  between 48 57 c || between 65 90 c || between 97 122 c || between 95 95 c
  || between 170 170 c || between 178 179 c || between 181 181 c
  || between 185 186 c || between 188 190 c
  || between 192 214 c || between 216 246 c || between 248 255 c.

Definition eqc (a b : ascii) : bool := Ascii.eqb a b.
Global Arguments eqc : simpl never.

(** [.] of a regex: anything but a line feed. *)
Definition isdot (c : ascii) : bool := negb (eqc c newline).

Definition is_empty (s : string) : bool :=
  match s with EmptyString => true | _ => false end.

(** [s.startswith(p)] *)
Fixpoint startswith (s p : string) : bool :=
  match p, s with
  | EmptyString, _ => true
  | String a p', String b s' => eqc a b && startswith s' p'
  | String _ _, EmptyString => false
  end.

(** The rest of [s] after the prefix [p], when [s] starts with it. *)
Fixpoint strip_prefix (p s : string) : option string :=
  match p, s with
  | EmptyString, _ => Some s
  | String a p', String b s' => if eqc a b then strip_prefix p' s' else None
  | String _ _, EmptyString => None
  end.

(** The last character of a string, if any. *)
Fixpoint last_char (s : string) : option ascii :=
  match s with
  | EmptyString => None
  | String c EmptyString => Some c
  | String _ s' => last_char s'
  end.

(** [s.endswith(c)] for a one-character suffix. *)
Definition endswith_char (s : string) (c : ascii) : bool :=
  match last_char s with Some d => eqc c d | None => false end.

(** [c in s] for a one-character needle. *)
Fixpoint contains (c : ascii) (s : string) : bool :=
  match s with
  | EmptyString => false
  | String d s' => eqc c d || contains c s'
  end.

(** [s.count(c)] for a one-character needle. *)
Fixpoint count (c : ascii) (s : string) : Z :=
  match s with
  | EmptyString => 0
  | String d s' => (if eqc c d then 1 else 0) + count c s'
  end.

Fixpoint lstrip (s : string) : string :=
  match s with
  | String c s' => if isspace c then lstrip s' else s
  | EmptyString => EmptyString
  end.

Fixpoint rstrip (s : string) : string :=
  match s with
  | EmptyString => EmptyString
  | String c s' =>
      let r := rstrip s' in
      if isspace c && is_empty r then EmptyString else String c r
  end.

(** [s.strip()] *)
Definition strip (s : string) : string := rstrip (lstrip s).

(** [s.split(sep)] for a one-character separator: never empty, the pieces
    between the separators in order. *)
Fixpoint split (sep : ascii) (s : string) : list string :=
  match s with
  | EmptyString => [EmptyString]
  | String c s' =>
      if eqc c sep then EmptyString :: split sep s'
      else match split sep s' with
           | piece :: pieces => String c piece :: pieces
           | [] => [String c EmptyString]
           end
  end.

(** [s[n:]] *)
Fixpoint drop_chars (n : nat) (s : string) : string :=
  match n, s with
  | O, _ => s
  | S n', String _ s' => drop_chars n' s'
  | S _, EmptyString => EmptyString
  end.

(** [s[:n]] *)
Fixpoint take_chars (n : nat) (s : string) : string :=
  match n, s with
  | O, _ => EmptyString
  | S n', String c s' => String c (take_chars n' s')
  | S _, EmptyString => EmptyString
  end.

(** [s[:-1]] *)
Fixpoint drop_last (s : string) : string :=
  match s with
  | EmptyString => EmptyString
  | String _ EmptyString => EmptyString
  | String c s' => String c (drop_last s')
  end.

(** [s[1:-1]] *)
Definition inner (s : string) : string := drop_last (drop_chars 1 s).

(** [s1 == s2] *)
Definition eqs (a b : string) : bool := String.eqb a b.

(** [''.join(chars)] for a list of characters. *)
Definition join_chars (l : list ascii) : string := string_of_list_ascii l.

(** The value of [int(s)] for a text that matches [-?\d+]; whether the
    host converts a text of that length at all is decided where the
    interpreter calls [int] ([int_of_text] below). *)
Definition digit_value (c : ascii) : Z := Z.of_N (code c) - 48.

Fixpoint parse_digits (acc : Z) (s : string) : Z :=
  match s with
  | EmptyString => acc
  | String c s' => parse_digits (10 * acc + digit_value c) s'
  end.

Definition parse_int (s : string) : Z :=
  match s with
  | String c s' => if eqc c "-" then - parse_digits 0 s' else parse_digits 0 s
  | EmptyString => 0
  end.

(** The number of digits of a text: what [int(s)] holds against the limit
    of the host on the length of an integer text. *)
Fixpoint count_digits (s : string) : Z :=
  match s with
  | EmptyString => 0
  | String c s' => (if isdigit c then 1 else 0) + count_digits s'
  end.

End Py.

(* ================================================================== *)
(** * The fragment of [re] the program uses *)
(* ================================================================== *)

Module Re.

(** Every pattern of the two source files is a concatenation of literal
    text, greedy repetitions of a character class, an optional character,
    capture groups around those and the [$] anchor.  [re.match] anchors the
    pattern at the start of the subject and accepts any rest.  In the
    comments of the patterns below a capture group is written between angle
    brackets and a parenthesis or brace stands for itself. *)
Inductive regex :=
| Lit (text : string)
| Star (cls : ascii -> bool)
| Plus (cls : ascii -> bool)
| Opt (c : ascii)
| Group (r : regex)
| Cat (r1 r2 : regex)
| Eol.

Section Matcher.
Context {R : Type}.

(** Greedy [cls*] with backtracking: the longest run first, then shorter
    ones while the continuation refuses. *)
Fixpoint star (cls : ascii -> bool) (s : string) (k : string -> option R)
  : option R :=
  match s with
  | String c s' =>
      if cls c then
        match star cls s' k with
        | Some r => Some r
        | None => k s
        end
      else k s
  | EmptyString => k s
  end.

Fixpoint run (r : regex) (s : string) (caps : list string)
    (k : string -> list string -> option R) : option R :=
  match r with
  | Lit text =>
      match Py.strip_prefix text s with
      | Some s' => k s' caps
      | None => None
      end
  | Star cls => star cls s (fun s' => k s' caps)
  | Plus cls =>
      match s with
      | String c s' =>
          if cls c then star cls s' (fun s'' => k s'' caps) else None
      | EmptyString => None
      end
  | Opt c =>
      match s with
      | String d s' =>
          if Py.eqc c d then
            match k s' caps with
            | Some r => Some r
            | None => k s caps
            end
          else k s caps
      | EmptyString => k s caps
      end
  | Group r' =>
      run r' s caps (fun s' caps' =>
        k s' (caps' ++ [Py.take_chars (String.length s - String.length s') s]))
  | Cat r1 r2 => run r1 s caps (fun s' caps' => run r2 s' caps' k)
  | Eol =>
      match s with
      | EmptyString => k s caps
      | String c EmptyString => if Py.eqc c Py.newline then k s caps else None
      | _ => None
      end
  end.
End Matcher.

(** [re.match(r, s)]: the groups of the first successful match. *)
Definition rmatch (r : regex) (s : string) : option (list string) :=
  run r s [] (fun _ caps => Some caps).

(** [m.group(1)] of a pattern with one group, [(m.group(1), m.group(2))]
    of a pattern with two, when there is a match. *)
Definition match1 (r : regex) (s : string) : option string :=
  match rmatch r s with
  | Some [a] => Some a
  | _ => None
  end.

Definition match2 (r : regex) (s : string) : option (string * string) :=
  match rmatch r s with
  | Some [a; b] => Some (a, b)
  | _ => None
  end.

(** Whether [re.match(r, s)] is a match. *)
Definition matches (r : regex) (s : string) : bool :=
  match rmatch r s with
  | Some _ => true
  | None => false
  end.

Definition seq (rs : list regex) : regex := foldr Cat (Lit "") rs.

Definition ws_star := Star Py.isspace.
Definition ws_plus := Plus Py.isspace.
Definition word := Plus Py.isword.
Definition dotted (c : ascii) : bool := Py.isword c || Py.eqc c ".".
Definition not_char (x : ascii) (c : ascii) : bool := negb (Py.eqc c x).

(** class \s+ <\w+> \s* {  *)
Definition class_header : regex :=
  seq [Lit "class"; ws_plus; Group word; ws_star; Lit "{"].

(** fn \s+ <\w+> \s* ( <[^)]*> ) \s* {  *)
Definition fn_header : regex :=
  seq [Lit "fn"; ws_plus; Group word; ws_star; Lit "(";
       Group (Star (not_char ")")); Lit ")"; ws_star; Lit "{"].

(** field \s+ <\w+> \s* = \s* <.*>  *)
Definition field_decl : regex :=
  seq [Lit "field"; ws_plus; Group word; ws_star; Lit "="; ws_star;
       Group (Star Py.isdot)].

(** let \s+ <\w+> \s* = \s* <.*>  *)
Definition let_decl : regex :=
  seq [Lit "let"; ws_plus; Group word; ws_star; Lit "="; ws_star;
       Group (Star Py.isdot)].

(** <[\w\.]+> \s* = \s* <.*>  *)
Definition assignment : regex :=
  seq [Group (Plus dotted); ws_star; Lit "="; ws_star; Group (Star Py.isdot)].

(** return \s+ <.*>  (the compiler's) *)
Definition return_stmt : regex :=
  seq [Lit "return"; ws_plus; Group (Star Py.isdot)].

(** if \s+ <.+> \s* {  (the compiler's) *)
Definition if_header_compiler : regex :=
  seq [Lit "if"; ws_plus; Group (Plus Py.isdot); ws_star; Lit "{"].

(** if \s+ <[^{]+> \s* {  (the interpreter's) *)
Definition if_header : regex :=
  seq [Lit "if"; ws_plus; Group (Plus (not_char "{")); ws_star; Lit "{"].

(** <[\w\.]+> \s* ( <.*> )  *)
Definition call : regex :=
  seq [Group (Plus dotted); ws_star; Lit "("; Group (Star Py.isdot); Lit ")"].

(** ^ -? \d+ $  *)
Definition int_literal : regex := seq [Opt "-"; Plus Py.isdigit; Eol].

(** ^ -? \d+ \. \d+ $  *)
Definition float_literal : regex :=
  seq [Opt "-"; Plus Py.isdigit; Lit "."; Plus Py.isdigit; Eol].

End Re.

(* ================================================================== *)
(** * Values, objects and the interpreter state *)
(* ================================================================== *)

(** The Python values a script can reach.  Instances of [KSPLObject] and of
    [KSPLClass] are mutable and shared, so a value holds their address in
    the stores of the interpreter state.  [VBuiltin] is a callable that
    [setup_builtins] seeds, [VConstructor] the closure that
    [make_constructor] returns, [VFunction] the lambda that [run] creates
    for a global function (it reads the cells of the activation of [run]
    that created it), and [VHost] any other value of the host, opaque
    here.  A [float] is the double that the host computes from a text: the
    embedding does not round decimals itself and holds the code that the
    host gives the double. *)
Inductive Value :=
| VNone
| VBool (b : bool)
| VInt (z : Z)
| VFloat (double : nat)
| VStr (s : string)
| VObj (l : nat)
| VKlass (c : nat)
| VBuiltin (builtin : string)
| VConstructor (cls_name : string)
| VFunction (frame : nat)
| VHost (handle : nat).

(** A local environment is a Python dict from names to values. *)
Abbreviation Env := (gmap string Value).

(** The [{'params': ..., 'body': ...}] entry of a method table. *)
Record Method := { params : list string; body : list string }.

(** [class KSPLClass] *)
Record KSPLClass := {
  name : string;
  methods : gmap string Method;
  fields : gmap string Value
}.

(** [class KSPLInterpreter], together with the objects it allocates:
    [klasses] holds the [KSPLClass] objects, [objects] the [__dict__] of the
    [KSPLObject] instances, [frames] the cells [(params, body)] that the
    lambdas of each activation of [run] close over. *)
Record Interpreter := {
  classes : gmap string nat;
  globals : gmap string Value;
  klasses : list KSPLClass;
  objects : list (gmap string Value);
  frames : list (list string * list string)
}.

Definition set_classes (f : gmap string nat -> gmap string nat) (st : Interpreter) :=
  {| classes := f (classes st); globals := globals st; klasses := klasses st;
     objects := objects st; frames := frames st |}.
Definition set_globals (f : Env -> Env) (st : Interpreter) :=
  {| classes := classes st; globals := f (globals st); klasses := klasses st;
     objects := objects st; frames := frames st |}.
Definition set_klasses (f : list KSPLClass -> list KSPLClass) (st : Interpreter) :=
  {| classes := classes st; globals := globals st; klasses := f (klasses st);
     objects := objects st; frames := frames st |}.
Definition set_objects (f : list Env -> list Env) (st : Interpreter) :=
  {| classes := classes st; globals := globals st; klasses := klasses st;
     objects := f (objects st); frames := frames st |}.
Definition set_frames
    (f : list (list string * list string) -> list (list string * list string))
    (st : Interpreter) :=
  {| classes := classes st; globals := globals st; klasses := klasses st;
     objects := objects st; frames := f (frames st) |}.

(** The exceptions that leave the modelled code.  [AttributeError ty attr]
    is Python's failure to find or set the attribute [attr] on an object
    of type [ty], [NotCallable ty] the [TypeError] of a call of an object of
    type [ty].  [IntConversionError max_digits digits] is the [ValueError] of
    [int(text)] for a text of [digits] digits where the host allows
    [max_digits]; [ClassAssignmentError ty] the [TypeError] of an assignment
    to [__class__] on an object of type [ty].  [HostError] is whatever a
    host callable raises; [OutOfFuel] and [Unmodelled] are not Python
    exceptions: the first ends a run of the model that was given too
    little fuel, the second marks a reflective path the embedding does not
    follow (for example a call through an instance whose [_klass]
    attribute a script has overwritten). *)
Inductive Exn :=
| KSPLRuntimeError (msg : string)
| KSPLCompileError (msg : string)
| AttributeError (ty : string) (attr : string)
| NotCallable (ty : string)
| IntConversionError (max_digits digits : Z)
| ClassAssignmentError (ty : string)
| KeyError (key : string)
| IndexError (msg : string)
| HostError (msg : string)
| OutOfFuel
| Unmodelled (what : string).

Inductive Outcome (A : Type) :=
| Ok (a : A)
| Raise (e : Exn).
Arguments Ok {A} a.
Arguments Raise {A} e.

(** [type(v).__name__] *)
Definition type_name (v : Value) : string :=
  match v with
  | VNone => "NoneType"
  | VBool _ => "bool"
  | VInt _ => "int"
  | VFloat _ => "float"
  | VStr _ => "str"
  | VObj _ => "KSPLObject"
  | VKlass _ => "KSPLClass"
  | VBuiltin _ => "builtin_function_or_method"
  | VConstructor _ | VFunction _ => "function"
  | VHost _ => "object"
  end.

(** Code that reads and writes the interpreter and may raise: the state is
    returned in both cases, as an exception undoes nothing. *)
Definition M (A : Type) : Type := Interpreter -> Interpreter * Outcome A.

Definition ret {A} (a : A) : M A := fun st => (st, Ok a).
Definition raise {A} (e : Exn) : M A := fun st => (st, Raise e).
Definition bind {A B} (m : M A) (k : A -> M B) : M B :=
  fun st =>
    match m st with
    | (st', Ok a) => k a st'
    | (st', Raise e) => (st', Raise e)
    end.
Definition get : M Interpreter := fun st => (st, Ok st).
Definition modify (f : Interpreter -> Interpreter) : M unit :=
  fun st => (f st, Ok tt).
Definition lift {A} (o : Outcome A) : M A := fun st => (st, o).

Declare Scope kspl_scope.
Delimit Scope kspl_scope with kspl.
Notation "x <- m ;; k" := (bind m (fun x => k))
  (at level 100, m at next level, right associativity) : kspl_scope.
Notation "m ;;; k" := (bind m (fun _ => k))
  (at level 100, right associativity) : kspl_scope.
Local Open Scope kspl_scope.

(** What the embedding takes from the host Python: the fallback [eval] of
    [eval_expression], attribute access and assignment on values that are
    not the [__dict__] of an instance, item access on host dicts, calls of
    host callables, truth of host values, the doubles of float texts and
    the limit on the length of integer texts. *)
Record Host := {
  (** [eval(compile(ast.parse(expr)), {'__builtins__': {}}, safe_env)];
      [None] when it raises. *)
  py_eval : string -> Env -> Interpreter -> Interpreter * option Value;
  (** The attribute Python finds on a value outside an instance [__dict__]
      (on its type, or on a host object); [None] when there is none. *)
  py_getattr : Value -> string -> Interpreter -> option Value;
  (** [setattr] on a value that is not a plain instance attribute. *)
  py_setattr : Value -> string -> Value -> M unit;
  (** [d[key]] when the value is a dict that holds [key]. *)
  py_dict_item : Value -> string -> option Value;
  (** [callable(v)] for a host value. *)
  py_callable : Value -> bool;
  (** [v( *args )] for a host callable. *)
  py_call : Value -> list Value -> M Value;
  (** [bool(v)] for a float or a host value. *)
  py_truth : Value -> bool;
  (** The double [float(text)] for a text that matches [-?\d+\.\d+], as
      the code the host gives it: two texts have one code when their
      doubles are equal. *)
  py_float : string -> nat;
  (** [sys.get_int_max_str_digits()]: 0 when the host sets no limit (or
      knows none), else a limit of at least 640 digits. *)
  int_max_str_digits : Z
}.

(* ================================================================== *)
(** * [kursarscript-interpreter.py] *)
(* ================================================================== *)

(** The result of [KSPLInterpreter.parse]: the tuples [('class', name,
    body)], [('function', name, params, body)] and [('stmt', line)]. *)
Inductive ParsedStmt :=
| PClass (class_name : string) (class_body : list string)
| PFunction (fn_name : string) (fn_params : list string) (fn_body : list string)
| PStmt (line : string).

(** The loop shared by [parse_class], [parse_function] and [load_class]:
<<
    while i < len(lines) and depth > 0:
        current_line = lines[i]
        depth += current_line.count('{')
        depth -= current_line.count('}')
        if depth > 0:
            body.append(current_line)
        i += 1
>>
    on the lines from [i] on; it returns the body, the lines left and the
    final depth. *)
Fixpoint scan_block (lines : list string) (depth : Z) (acc : list string)
  : list string * list string * Z :=
  match lines with
  | [] => (acc, [], depth)
  | current_line :: rest =>
      if 0 <? depth then
        let depth := depth + Py.count "{" current_line - Py.count "}" current_line in
        scan_block rest depth (if 0 <? depth then acc ++ [current_line] else acc)
      else (acc, lines, depth)
  end.

(** [[p.strip() for p in text.split(',') if p.strip()]] *)
Definition split_params (text : string) : list string :=
  List.filter (fun p => negb (Py.is_empty p)) (map Py.strip (Py.split "," text)).

(** [parse_class(lines, start_index)]: the statement and the index after
    the block. *)
Definition parse_class (lines : list string) (start_index : nat)
  : Outcome (ParsedStmt * nat) :=
  match lines !! start_index with
  | None => Raise (IndexError "list index out of range")
  | Some line =>
      match Re.match1 Re.class_header line with
      | Some class_name =>
          let '(class_body, rest, _) := scan_block (drop (S start_index) lines) 1 [] in
          Ok (PClass class_name class_body, (length lines - length rest)%nat)
      | None => Raise (KSPLRuntimeError "Invalid class definition")
      end
  end.

(** [parse_function(lines, start_index)] *)
Definition parse_function (lines : list string) (start_index : nat)
  : Outcome (ParsedStmt * nat) :=
  match lines !! start_index with
  | None => Raise (IndexError "list index out of range")
  | Some line =>
      match Re.match2 Re.fn_header line with
      | Some (fn_name, params_text) =>
          let '(fn_body, rest, _) := scan_block (drop (S start_index) lines) 1 [] in
          Ok (PFunction fn_name (split_params params_text) fn_body,
              (length lines - length rest)%nat)
      | None => Raise (KSPLRuntimeError "Invalid function definition")
      end
  end.

(** The [while i < len(lines)] loop of [parse]; every turn advances [i], so
    [length lines] turns are enough. *)
Fixpoint parse_loop (fuel : nat) (lines : list string) (i : nat)
    (statements : list ParsedStmt) : Outcome (list ParsedStmt) :=
  match lines !! i with
  | None => Ok statements
  | Some line =>
      match fuel with
      | O => Raise OutOfFuel
      | S fuel' =>
          if Py.is_empty line || Py.startswith line "//" then
            parse_loop fuel' lines (S i) statements
          else if Py.startswith line "class " then
            match parse_class lines i with
            | Ok (class_stmt, i') => parse_loop fuel' lines i' (statements ++ [class_stmt])
            | Raise e => Raise e
            end
          else if Py.startswith line "fn " then
            match parse_function lines i with
            | Ok (fn_stmt, i') => parse_loop fuel' lines i' (statements ++ [fn_stmt])
            | Raise e => Raise e
            end
          else parse_loop fuel' lines (S i) (statements ++ [PStmt line])
      end
  end.

(** [KSPLInterpreter.parse(source)] *)
Definition parse (source : string) : Outcome (list ParsedStmt) :=
  let lines := map Py.strip (Py.split Py.newline source) in
  parse_loop (length lines) lines 0 [].

(** ** [split_arguments] *)

(** The state of the loop of [split_arguments]: the arguments found, the
    characters of the current one, the parenthesis depth, and the quote
    character of the string literal the scan is in, if any ([in_string] and
    [string_char] of the source are set and cleared together). *)
Record SplitState := {
  sp_args : list string;
  sp_current : list ascii;
  sp_depth : Z;
  sp_string_char : option ascii
}.

Definition is_quote (c : ascii) : bool := Py.eqc c Py.dquote || Py.eqc c Py.squote.

(** One turn of the [while i < len(args_text)] loop, on the character
    [char]. *)
Definition split_step (s : SplitState) (char : ascii) : SplitState :=
  if is_quote char then
    {| sp_args := sp_args s;
       sp_current := sp_current s ++ [char];
       sp_depth := sp_depth s;
       sp_string_char :=
         match sp_string_char s with
         | None => Some char
         | Some q => if Py.eqc q char then None else Some q
         end |}
  else
    match sp_string_char s with
    | Some _ =>
        {| sp_args := sp_args s; sp_current := sp_current s ++ [char];
           sp_depth := sp_depth s; sp_string_char := sp_string_char s |}
    | None =>
        if Py.eqc char "(" then
          {| sp_args := sp_args s; sp_current := sp_current s ++ [char];
             sp_depth := sp_depth s + 1; sp_string_char := None |}
        else if Py.eqc char ")" then
          {| sp_args := sp_args s; sp_current := sp_current s ++ [char];
             sp_depth := sp_depth s - 1; sp_string_char := None |}
        else if (sp_depth s =? 0) && Py.eqc char "," then
          {| sp_args := sp_args s ++ [Py.strip (Py.join_chars (sp_current s))];
             sp_current := []; sp_depth := sp_depth s; sp_string_char := None |}
        else
          {| sp_args := sp_args s; sp_current := sp_current s ++ [char];
             sp_depth := sp_depth s; sp_string_char := None |}
    end.

Fixpoint split_loop (s : SplitState) (text : list ascii) : SplitState :=
  match text with
  | [] => s
  | char :: rest => split_loop (split_step s char) rest
  end.

(** [split_arguments(args_text)] *)
Definition split_arguments (args_text : string) : list string :=
  let s := split_loop
             {| sp_args := []; sp_current := []; sp_depth := 0; sp_string_char := None |}
             (list_ascii_of_string args_text) in
  match sp_current s with
  | [] => sp_args s
  | _ => sp_args s ++ [Py.strip (Py.join_chars (sp_current s))]
  end.

(** ** Attribute access *)

(** The names that [object] serves through data descriptors, which win
    over an entry of the instance [__dict__]. *)
Definition data_descriptor (prop : string) : bool :=
  Py.eqs prop "__dict__" || Py.eqs prop "__class__" || Py.eqs prop "__weakref__".

(** The failures of the interpreter, under the names the design gives
    them; the source raises all of them as [KSPLRuntimeError]. *)
Definition PropertyNotFoundError (prop : string) : Exn :=
  KSPLRuntimeError ("Property '" +:+ prop +:+ "' not found").
Definition CallTargetError (fn_name : string) : Exn :=
  KSPLRuntimeError ("Function '" +:+ fn_name +:+ "' not found").
Definition MethodNotFoundError (method_name : string) : Exn :=
  KSPLRuntimeError ("Method '" +:+ method_name +:+ "' not found").

Section Interpreter.
Context (host : Host).

(** [getattr(obj, prop)] when [hasattr(obj, prop)], else [None]. *)
Definition getattr (obj : Value) (prop : string) (st : Interpreter)
  : option Value :=
  match obj with
  | VObj l =>
      match objects st !! l with
      | Some d =>
          if data_descriptor prop then py_getattr host obj prop st
          else match d !! prop with
               | Some v => Some v
               | None => py_getattr host obj prop st
               end
      | None => None
      end
  | _ => py_getattr host obj prop st
  end.

(** [obj[key]] when [isinstance(obj, dict) and key in obj]; only a host
    value can be a dict. *)
Definition dict_item (obj : Value) (key : string) : option Value :=
  match obj with
  | VHost _ => py_dict_item host obj key
  | _ => None
  end.

(** [bool(v)] *)
Definition truthy (v : Value) : bool :=
  match v with
  | VNone => false
  | VBool b => b
  | VInt z => negb (z =? 0)
  | VStr s => negb (Py.is_empty s)
  | VFloat _ | VHost _ => py_truth host v
  | VObj _ | VKlass _ | VBuiltin _ | VConstructor _ | VFunction _ => true
  end.

(** [callable(v)] *)
Definition callable (v : Value) : bool :=
  match v with
  | VBuiltin _ | VConstructor _ | VFunction _ => true
  | VHost _ => py_callable host v
  | _ => false
  end.

(** [int(expr)] for a text that matches [-?\d+].  CPython refuses a text
    of more than 640 digits that is longer than the limit of the host, if
    the host has one; the sign is not counted, leading zeros are. *)
Definition int_of_text (expr : string) : M Value :=
  let digits := Py.count_digits expr in
  if (640 <? digits) && (0 <? int_max_str_digits host)
     && (int_max_str_digits host <? digits) then
    raise (IntConversionError (int_max_str_digits host) digits)
  else ret (VInt (Py.parse_int expr)).

(** One turn of the loops that walk a property path:
<<
    if hasattr(obj, prop):
        obj = getattr(obj, prop)
    elif isinstance(obj, dict) and prop in obj:
        obj = obj[prop]
    else:
        raise KSPLRuntimeError(f"Property '{prop}' not found")
>> *)
Definition resolve_property (obj : Value) (prop : string) : M Value :=
  fun st =>
    match getattr obj prop st with
    | Some v => (st, Ok v)
    | None =>
        match dict_item obj prop with
        | Some v => (st, Ok v)
        | None => (st, Raise (PropertyNotFoundError prop))
        end
    end.

Fixpoint resolve_path (obj : Value) (props : list string) : M Value :=
  match props with
  | [] => ret obj
  | prop :: rest => obj' <- resolve_property obj prop;; resolve_path obj' rest
  end.

(** [setattr(current, prop, value)].  [None], booleans, numbers and
    strings take no attribute: Python raises [AttributeError], and
    [TypeError] for [__class__]. *)
Definition setattr (current : Value) (prop : string) (value : Value) : M unit :=
  match current with
  | VObj l =>
      if data_descriptor prop then py_setattr host current prop value
      else modify (set_objects (fun os =>
             match os !! l with
             | Some d => <[l := <[prop := value]> d]> os
             | None => os
             end))
  | VNone | VBool _ | VInt _ | VFloat _ | VStr _ =>
      if Py.eqs prop "__class__" then
        raise (ClassAssignmentError (type_name current))
      else raise (AttributeError (type_name current) prop)
  | _ => py_setattr host current prop value
  end.

(** [obj._klass] read as a class: the class object an instance points
    to. *)
Definition klass_of (l : nat) : M KSPLClass :=
  fun st =>
    match objects st !! l with
    | Some d =>
        match d !! "_klass" with
        | Some (VKlass c) =>
            match klasses st !! c with
            | Some k => (st, Ok k)
            | None => (st, Raise (Unmodelled "dangling class"))
            end
        | Some ((VNone | VBool _ | VInt _ | VFloat _ | VStr _) as v) =>
            (st, Raise (AttributeError (type_name v) "methods"))
        | _ => (st, Raise (Unmodelled "_klass is not a KSPLClass"))
        end
    | None => (st, Raise (Unmodelled "dangling instance"))
    end.

(** The loop of [call_method] that binds the parameters:
<<
    for i, param in enumerate(method['params']):
        if i < len(args):
            local_env[param] = args[i]
        else:
            local_env[param] = None
>> *)
Fixpoint bind_params (ps : list string) (args : list Value) (local_env : Env)
  : Env :=
  match ps with
  | [] => local_env
  | param :: ps' =>
      match args with
      | a :: args' => bind_params ps' args' (<[param := a]> local_env)
      | [] => bind_params ps' [] (<[param := VNone]> local_env)
      end
  end.

(** [dict(zip(params, args))] *)
Fixpoint zip_env (ps : list string) (args : list Value) (local_env : Env) : Env :=
  match ps, args with
  | param :: ps', a :: args' => zip_env ps' args' (<[param := a]> local_env)
  | _, _ => local_env
  end.

(** The [interpreter] argument of [call_method]: the interpreter, or
    [None]. *)
Inductive InterpreterArg := NoInterpreter | TheInterpreter.

(** ** Evaluation.  [eval_expression] and [execute_block] call each
    other through calls of KSPL functions and methods; the definitions
    below take the two recursive entry points as parameters and the knot
    is tied on the fuel afterwards. *)
Section Bodies.
Variable eval_rec : string -> Env -> M Value.
Variable block_rec : list string -> Env -> M Value.

(** [KSPLObject.call_method(self, method_name, interpreter, args)] *)
Definition call_method (l : nat) (method_name : string)
    (interpreter : InterpreterArg) (args : list Value) : M Value :=
  k <- klass_of l;;
  match methods k !! method_name with
  | None =>
      raise (KSPLRuntimeError ("Method '" +:+ method_name +:+
                               "' not found in class '" +:+ name k +:+ "'"))
  | Some method =>
      let local_env := bind_params (params method) args {[ "self" := VObj l ]} in
      match interpreter with
      | NoInterpreter =>
          raise (AttributeError "NoneType" "execute_block")
      | TheInterpreter => block_rec (body method) local_env
      end
  end.

(** [obj.call_method(method_name, interpreter, args)] as the callers write
    it: Python looks [call_method] up on the instance, where an entry of
    the instance [__dict__] under that name hides the method of the class
    [KSPLObject].  Such an entry that is not callable makes the call a
    [TypeError]; the embedding does not follow a callable one. *)
Definition bound_call_method (l : nat) (method_name : string)
    (interpreter : InterpreterArg) (args : list Value) : M Value :=
  st <- get;;
  match objects st !! l with
  | Some d =>
      match d !! "call_method" with
      | None => call_method l method_name interpreter args
      | Some v =>
          if callable v then
            raise (Unmodelled "call_method is hidden by a callable attribute")
          else raise (NotCallable (type_name v))
      end
  | None => raise (Unmodelled "dangling instance")
  end.

(** [KSPLObject(klass, args)]: [__init__] on a fresh instance. *)
Definition new_object (c : nat) (args : list Value) : M Value :=
  st <- get;;
  match klasses st !! c with
  | None => raise (Unmodelled "dangling class")
  | Some klass =>
      let l := length (objects st) in
      modify (set_objects (fun os => os ++ [fields klass ∪ {[ "_klass" := VKlass c ]}]));;;
      match methods klass !! "init" with
      | Some _ =>
          _ <- bound_call_method l "init" NoInterpreter args;;
          ret (VObj l)
      | None =>
          match args with
          | a :: _ => setattr (VObj l) "name" a;;; ret (VObj l)
          | [] => ret (VObj l)
          end
      end
  end.

(** [f( *args )] for a value [f]. *)
Definition call_value (f : Value) (args : list Value) : M Value :=
  match f with
  | VBuiltin _ | VHost _ => py_call host f args
  | VConstructor cls_name =>
      st <- get;;
      match classes st !! cls_name with
      | Some c => new_object c args
      | None => raise (KeyError cls_name)
      end
  | VFunction frame =>
      st <- get;;
      match frames st !! frame with
      | Some (ps, b) => block_rec b (zip_env ps args ∅)
      | None => raise (Unmodelled "dangling frame")
      end
  | _ => raise (NotCallable (type_name f))
  end.

Fixpoint eval_args (arg_list : list string) (local_env : Env)
  : M (list Value) :=
  match arg_list with
  | [] => ret []
  | arg :: rest =>
      v <- eval_rec arg local_env;;
      vs <- eval_args rest local_env;;
      ret (v :: vs)
  end.

(** The arguments of a call, evaluated from left to right:
<<
    args = []
    if args_text:
        arg_list = self.split_arguments(args_text)
        for arg in arg_list:
            args.append(self.eval_expression(arg, local_env))
>> *)
Definition eval_call_arguments (args_text : string) (local_env : Env)
  : M (list Value) :=
  if Py.is_empty args_text then ret []
  else eval_args (split_arguments args_text) local_env.

(** [eval_function_call(expr, local_env)] *)
Definition eval_function_call (expr : string) (local_env : Env) : M Value :=
  match Re.match2 Re.call expr with
  | Some (fn_name, args_group) =>
      args <- eval_call_arguments (Py.strip args_group) local_env;;
      if Py.contains "." fn_name then
        match Py.split "." fn_name with
        | obj_text :: method_name :: _ =>
            obj <- eval_rec obj_text local_env;;
            st <- get;;
            match getattr obj method_name st with
            | Some method => call_value method args
            | None =>
                match obj with
                | VObj l =>
                    k <- klass_of l;;
                    match methods k !! method_name with
                    | Some _ => bound_call_method l method_name TheInterpreter args
                    | None => raise (MethodNotFoundError method_name)
                    end
                | _ => raise (MethodNotFoundError method_name)
                end
            end
        | _ => raise (Unmodelled "split")
        end
      else
        st <- get;;
        match globals st !! fn_name with
        | Some f =>
            if callable f then call_value f args
            else match classes st !! fn_name with
                 | Some c => new_object c args
                 | None => raise (CallTargetError fn_name)
                 end
        | None =>
            match classes st !! fn_name with
            | Some c => new_object c args
            | None => raise (CallTargetError fn_name)
            end
        end
  | None => raise (KSPLRuntimeError ("Invalid function call: " +:+ expr))
  end.

(** [eval_expression(expr, local_env)] *)
Definition eval_expression_body (expr : string) (local_env : Env) : M Value :=
  let expr := Py.strip expr in
  if (Py.startswith expr (String Py.dquote "") && Py.endswith_char expr Py.dquote)
     || (Py.startswith expr "'" && Py.endswith_char expr "'") then
    ret (VStr (Py.inner expr))
  else if Py.eqs expr "true" then ret (VBool true)
  else if Py.eqs expr "false" then ret (VBool false)
  else if Py.eqs expr "null" then ret VNone
  else if Re.matches Re.int_literal expr then int_of_text expr
  else if Re.matches Re.float_literal expr then
    ret (VFloat (py_float host expr))
  else
    st <- get;;
    match local_env !! expr with
    | Some v => ret v
    | None =>
        match globals st !! expr with
        | Some v => ret v
        | None =>
            if Py.contains "(" expr && Py.endswith_char expr ")" then
              eval_function_call expr local_env
            else if Py.contains "." expr then
              match Py.split "." expr with
              | base :: props =>
                  obj <- eval_rec base local_env;;
                  resolve_path obj props
              | [] => raise (Unmodelled "split")
              end
            else
              fun st =>
                match py_eval host expr (local_env ∪ globals st) st with
                | (st', Some v) => (st', Ok v)
                | (st', None) =>
                    (st', Raise (KSPLRuntimeError
                                   ("Could not evaluate expression: " +:+ expr)))
                end
        end
    end.
End Bodies.

(** ** Statements *)

(** The property branch of an assignment: walk to the parent object,
    then set the last property.
<<
    current = obj
    for prop in prop_path[:-1]: ...
    setattr(current, prop_path[-1], value)
>> *)
Definition assign_property (obj : Value) (prop_path : list string)
    (value : Value) : M unit :=
  current <- resolve_path obj (removelast prop_path);;
  setattr current (List.last prop_path EmptyString) value.

(** [execute_statement(stmt, local_env)]; [local_env] is a dict that the
    statement may update in place, so it is returned with the value. *)
Definition execute_statement_body (eval_rec : string -> Env -> M Value)
    (stmt : string) (local_env : Env) : M (Value * Env) :=
  let stmt := Py.strip stmt in
  if Py.is_empty stmt || Py.startswith stmt "//" then ret (VNone, local_env)
  else
    match (if Py.startswith stmt "let " then Re.match2 Re.let_decl stmt
           else None) with
    | Some (var_name, expr) =>
        (* Variable declaration *)
        value <- eval_rec expr local_env;;
        ret (value, <[var_name := value]> local_env)
    | None =>
        match Re.match2 Re.assignment stmt with
        | Some (target, expr) =>
            (* Assignment *)
            value <- eval_rec expr local_env;;
            if Py.contains "." target then
              match Py.split "." target with
              | obj_name :: prop_path =>
                  st <- get;;
                  match local_env !! obj_name with
                  | Some obj =>
                      assign_property obj prop_path value;;; ret (value, local_env)
                  | None =>
                      match globals st !! obj_name with
                      | Some obj =>
                          assign_property obj prop_path value;;;
                          ret (value, local_env)
                      | None =>
                          raise (KSPLRuntimeError
                                   ("Variable '" +:+ obj_name +:+ "' not found"))
                      end
                  end
              | [] => raise (Unmodelled "split")
              end
            else
              (* Simple variable assignment *)
              match local_env !! target with
              | Some _ => ret (value, <[target := value]> local_env)
              | None =>
                  modify (set_globals (fun g => <[target := value]> g));;;
                  ret (value, local_env)
              end
        | None =>
            if Py.startswith stmt "return " then
              (* Return statement *)
              value <- eval_rec (Py.strip (Py.drop_chars 7 stmt)) local_env;;
              ret (value, local_env)
            else
              match (if Py.startswith stmt "if " then Re.match1 Re.if_header stmt
                     else None) with
              | Some condition_text =>
                  (* If statement (simplified) *)
                  condition <- eval_rec condition_text local_env;;
                  ret (condition, local_env)
              | None =>
                  (* Function call or expression *)
                  value <- eval_rec stmt local_env;;
                  ret (value, local_env)
              end
        end
    end.

(** The loop of [execute_block]:
<<
    for stmt in statements:
        result = self.execute_statement(stmt, local_env)
        if result is not None and isinstance(result, dict) \
             and result.get('__return__'):
            return result['value']
    return result
>> *)
Fixpoint execute_block_loop (exec : string -> Env -> M (Value * Env))
    (statements : list string) (local_env : Env) (result : Value) : M Value :=
  match statements with
  | [] => ret result
  | stmt :: rest =>
      r <- exec stmt local_env;;
      let '(result, local_env) := r in
      match dict_item result "__return__" with
      | Some flag =>
          if truthy flag then
            match dict_item result "value" with
            | Some v => ret v
            | None => raise (KeyError "value")
            end
          else execute_block_loop exec rest local_env result
      | None => execute_block_loop exec rest local_env result
      end
  end.

Definition execute_block_body (exec : string -> Env -> M (Value * Env))
    (statements : list string) (local_env : Env) : M Value :=
  execute_block_loop exec statements local_env VNone.

(** ** Tying the knot: one unit of fuel per nested evaluation. *)
Fixpoint eval_expression (fuel : nat) : string -> Env -> M Value :=
  match fuel with
  | O => fun _ _ => raise OutOfFuel
  | S n => eval_expression_body (eval_expression n) (execute_block n)
  end
with execute_block (fuel : nat) : list string -> Env -> M Value :=
  match fuel with
  | O => fun _ _ => raise OutOfFuel
  | S n => execute_block_body (execute_statement_body (eval_expression n))
  end.

Definition execute_statement (fuel : nat) : string -> Env -> M (Value * Env) :=
  execute_statement_body (eval_expression fuel).

(** ** Loading a program *)

(** The loop of [load_class] over the lines of a class body. *)
Fixpoint load_class_loop (fuel : nat) (eval_fuel : nat) (lines : list string)
    (ms : gmap string Method) (fs : gmap string Value)
  : M (gmap string Method * gmap string Value) :=
  match lines with
  | [] => ret (ms, fs)
  | raw_line :: rest =>
      match fuel with
      | O => raise OutOfFuel
      | S fuel' =>
          let line := Py.strip raw_line in
          if Py.startswith line "fn " then
            match Re.match2 Re.fn_header line with
            | Some (method_name, params_text) =>
                let '(method_body, rest', _) := scan_block rest 1 [] in
                load_class_loop fuel' eval_fuel rest'
                  (<[method_name := {| params := split_params params_text;
                                       body := method_body |}]> ms) fs
            | None => load_class_loop fuel' eval_fuel rest ms fs
            end
          else if Py.startswith line "field " then
            match Re.match2 Re.field_decl line with
            | Some (field_name, expr) =>
                field_value <- eval_expression eval_fuel expr ∅;;
                load_class_loop fuel' eval_fuel rest ms (<[field_name := field_value]> fs)
            | None => load_class_loop fuel' eval_fuel rest ms fs
            end
          else load_class_loop fuel' eval_fuel rest ms fs
      end
  end.

(** [load_class(class_name, body)]: the address of the new [KSPLClass]. *)
Definition load_class (eval_fuel : nat) (class_name : string)
    (class_body : list string) : M nat :=
  r <- load_class_loop (length class_body) eval_fuel class_body ∅ ∅;;
  let '(ms, fs) := r in
  st <- get;;
  modify (set_klasses (fun ks =>
            ks ++ [{| name := class_name; methods := ms; fields := fs |}]));;;
  ret (length (klasses st)).

(** The first loop of [run]: load the classes.  The assignment
    [_, class_name, body = stmt] writes the variable [body] that the
    lambdas of the second loop close over. *)
Fixpoint load_classes (fuel : nat) (frame : nat) (statements : list ParsedStmt)
  : M unit :=
  match statements with
  | [] => ret tt
  | PClass class_name class_body :: rest =>
      modify (set_frames (fun fs =>
                match fs !! frame with
                | Some (ps, _) => <[frame := (ps, class_body)]> fs
                | None => fs
                end));;;
      c <- load_class fuel class_name class_body;;
      modify (set_classes (fun cs => <[class_name := c]> cs));;;
      modify (set_globals (fun g => <[class_name := VConstructor class_name]> g));;;
      load_classes fuel frame rest
  | _ :: rest => load_classes fuel frame rest
  end.

(** The second loop of [run]: execute the statements and bind the global
    functions.  The lambda reads [params] and [body] when it is called,
    so it is the cell of the activation that a function value holds. *)
Fixpoint execute_program (fuel : nat) (frame : nat) (statements : list ParsedStmt)
  : M unit :=
  match statements with
  | [] => ret tt
  | PStmt line :: rest =>
      _ <- execute_statement fuel line ∅;;
      execute_program fuel frame rest
  | PFunction fn_name fn_params fn_body :: rest =>
      modify (set_frames (fun fs => <[frame := (fn_params, fn_body)]> fs));;;
      modify (set_globals (fun g => <[fn_name := VFunction frame]> g));;;
      execute_program fuel frame rest
  | PClass _ _ :: rest => execute_program fuel frame rest
  end.

(** [run(source)] *)
Definition run (fuel : nat) (source : string) : M unit :=
  statements <- lift (parse source);;
  st <- get;;
  let frame := length (frames st) in
  modify (set_frames (fun fs => fs ++ [([], [])]));;;
  load_classes fuel frame statements;;;
  execute_program fuel frame statements.
End Interpreter.

(** [setup_builtins]: the names seeded into [globals]. *)
Definition builtin_callables : list string :=
  ["create_virtucard"; "transfer"; "VirtualTerminal"; "Avatar"; "VirtualItem";
   "print"; "len"; "str"; "int"; "float"; "bool";
   "get_avatar"; "create_portal"; "get_environment"].

Definition setup_builtins (g : Env) : Env :=
  <["null" := VNone]> (<["false" := VBool false]> (<["true" := VBool true]>
    (foldr (fun b acc => <[b := VBuiltin b]> acc) g builtin_callables))).

(** [KSPLInterpreter.__init__] *)
Definition new_interpreter : Interpreter :=
  {| classes := ∅; globals := setup_builtins ∅; klasses := []; objects := [];
     frames := [] |}.

(* ================================================================== *)
(** * [kursarscipt-compiler.py] *)
(* ================================================================== *)

(** The token dicts, by their ['type'].  [BRACE_CLOSE] is a type that
    [parse] tests for; [tokenize] has no case that produces it. *)
Inductive Token :=
| CLASS_DEF (value : string) (line : Z)
| FN_DEF (value : string) (fn_params : list string) (line : Z)
| FIELD_DEF (value : string) (expr : string) (line : Z)
| LET_DEF (value : string) (expr : string) (line : Z)
| ASSIGNMENT (target : string) (expr : string) (line : Z)
| RETURN (expr : string) (line : Z)
| IF_STMT (condition : string) (line : Z)
| ELSE_STMT (line : Z)
| EXPRESSION (value : string) (line : Z)
| STATEMENT (value : string) (line : Z)
| BRACE_CLOSE (line : Z).

(** [token['line']] *)
Definition token_line (t : Token) : Z :=
  match t with
  | CLASS_DEF _ n | FN_DEF _ _ n | FIELD_DEF _ _ n | LET_DEF _ _ n
  | ASSIGNMENT _ _ n | RETURN _ n | IF_STMT _ n | ELSE_STMT n
  | EXPRESSION _ n | STATEMENT _ n | BRACE_CLOSE n => n
  end.

(** The body of the [for line in lines] loop of [tokenize]: the token the
    line produces, if any, and the value of [line_num] after the turn.  The
    cases that end in [continue] leave [line_num] as it is; only the blank
    and comment case and the last two cases reach a [line_num += 1]. *)
Definition tokenize_line (raw_line : string) (line_num : Z) : option Token * Z :=
  let line := Py.strip raw_line in
  if Py.is_empty line || Py.startswith line "//" then (None, line_num + 1)
  else
    match Re.match1 Re.class_header line with
    | Some value => (Some (CLASS_DEF value line_num), line_num)
    | None =>
    match Re.match2 Re.fn_header line with
    | Some (value, params_text) =>
        (Some (FN_DEF value (split_params params_text) line_num), line_num)
    | None =>
    match Re.match2 Re.field_decl line with
    | Some (value, expr) => (Some (FIELD_DEF value expr line_num), line_num)
    | None =>
    match Re.match2 Re.let_decl line with
    | Some (value, expr) => (Some (LET_DEF value expr line_num), line_num)
    | None =>
    match Re.match2 Re.assignment line with
    | Some (target, expr) => (Some (ASSIGNMENT target expr line_num), line_num)
    | None =>
    match Re.match1 Re.return_stmt line with
    | Some expr => (Some (RETURN expr line_num), line_num)
    | None =>
    match Re.match1 Re.if_header_compiler line with
    | Some condition => (Some (IF_STMT condition line_num), line_num)
    | None =>
        if Py.eqs (Py.strip line) "} else {" then
          (Some (ELSE_STMT line_num), line_num)
        else if Py.contains "(" line && Py.endswith_char line ")" then
          (Some (EXPRESSION line line_num), line_num + 1)
        else (Some (STATEMENT line line_num), line_num + 1)
    end end end end end end end.

Fixpoint tokenize_lines (lines : list string) (line_num : Z) : list Token :=
  match lines with
  | [] => []
  | line :: rest =>
      match tokenize_line line line_num with
      | (Some t, line_num') => t :: tokenize_lines rest line_num'
      | (None, line_num') => tokenize_lines rest line_num'
      end
  end.

(** [KSPLCompiler.tokenize(source)] *)
Definition tokenize (source : string) : list Token :=
  tokenize_lines (Py.split Py.newline source) 1.

(** The entries of a method body and of [global_code]: a token, or the
    [{'type': 'IF', ...}] dict that [parse] builds. *)
Inductive Node :=
| NToken (t : Token)
| NIf (condition : string) (then_branch else_branch : list Token) (line : Z).

Record MethodAst := {
  m_name : string;
  m_params : list string;
  m_body : list Node;
  m_line : Z
}.

Record ClassAst := {
  c_name : string;
  c_methods : gmap string MethodAst;
  c_fields : gmap string (string * Z);
  c_line : Z
}.

(** The [ast] dict of [parse]. *)
Record Ast := {
  ast_classes : gmap string ClassAst;
  global_code : list Node;
  imports : list string
}.

(** [current_class] and [current_method] of [parse] are the dicts stored
    last under their names in [ast['classes']] and in the class's
    ['methods']; the model holds the names and updates the tables. *)
Record ParseState := {
  ps_ast : Ast;
  current_class : option string;
  current_method : option string
}.

Definition add_to_method (cls meth : string) (n : Node) (a : Ast) : Ast :=
  {| ast_classes :=
       alter (fun c =>
         {| c_name := c_name c;
            c_methods := alter (fun m =>
              {| m_name := m_name m; m_params := m_params m;
                 m_body := m_body m ++ [n]; m_line := m_line m |}) meth (c_methods c);
            c_fields := c_fields c; c_line := c_line c |}) cls (ast_classes a);
     global_code := global_code a; imports := imports a |}.

Definition add_to_global (n : Node) (a : Ast) : Ast :=
  {| ast_classes := ast_classes a; global_code := global_code a ++ [n];
     imports := imports a |}.

(** [current_method['body'].append(n)] if there is a current method, else
    [ast['global_code'].append(n)]. *)
Definition emit (n : Node) (s : ParseState) : ParseState :=
  {| ps_ast :=
       match current_class s, current_method s with
       | Some cls, Some meth => add_to_method cls meth n (ps_ast s)
       | _, _ => add_to_global n (ps_ast s)
       end;
     current_class := current_class s; current_method := current_method s |}.

Definition ends_then (t : Token) : bool :=
  match t with ELSE_STMT _ | BRACE_CLOSE _ => true | _ => false end.
Definition ends_else (t : Token) : bool :=
  match t with BRACE_CLOSE _ => true | _ => false end.

(** [while i < len(tokens) and not stop(tokens[i]): branch.append(tokens[i])] *)
Fixpoint collect_branch (stop : Token -> bool) (tokens : list Token)
  : list Token * list Token :=
  match tokens with
  | [] => ([], [])
  | t :: rest =>
      if stop t then ([], tokens)
      else let '(branch, rest') := collect_branch stop rest in (t :: branch, rest')
  end.

(** The [while i < len(tokens)] loop of [parse], on the tokens from [i]
    on. *)
Fixpoint compiler_parse_loop (fuel : nat) (tokens : list Token) (s : ParseState)
  : Outcome Ast :=
  match tokens with
  | [] => Ok (ps_ast s)
  | token :: rest =>
      match fuel with
      | O => Raise OutOfFuel
      | S fuel' =>
          match token with
          | CLASS_DEF class_name line =>
              compiler_parse_loop fuel' rest
                {| ps_ast :=
                     {| ast_classes :=
                          <[class_name := {| c_name := class_name; c_methods := ∅;
                                             c_fields := ∅; c_line := line |}]>
                            (ast_classes (ps_ast s));
                        global_code := global_code (ps_ast s);
                        imports := imports (ps_ast s) |};
                   current_class := Some class_name;
                   current_method := None |}
          | FN_DEF method_name ps line =>
              match current_class s with
              | Some cls =>
                  compiler_parse_loop fuel' rest
                    {| ps_ast :=
                         {| ast_classes :=
                              alter (fun c =>
                                {| c_name := c_name c;
                                   c_methods :=
                                     <[method_name := {| m_name := method_name;
                                                         m_params := ps; m_body := [];
                                                         m_line := line |}]> (c_methods c);
                                   c_fields := c_fields c; c_line := c_line c |})
                                cls (ast_classes (ps_ast s));
                            global_code := global_code (ps_ast s);
                            imports := imports (ps_ast s) |};
                       current_class := current_class s;
                       current_method := Some method_name |}
              | None => compiler_parse_loop fuel' rest s
              end
          | FIELD_DEF field_name expr line =>
              match current_class s with
              | Some cls =>
                  compiler_parse_loop fuel' rest
                    {| ps_ast :=
                         {| ast_classes :=
                              alter (fun c =>
                                {| c_name := c_name c; c_methods := c_methods c;
                                   c_fields := <[field_name := (expr, line)]> (c_fields c);
                                   c_line := c_line c |})
                                cls (ast_classes (ps_ast s));
                            global_code := global_code (ps_ast s);
                            imports := imports (ps_ast s) |};
                       current_class := current_class s;
                       current_method := current_method s |}
              | None => compiler_parse_loop fuel' rest s
              end
          | LET_DEF _ _ _ | ASSIGNMENT _ _ _ | EXPRESSION _ _ | STATEMENT _ _ =>
              compiler_parse_loop fuel' rest (emit (NToken token) s)
          | RETURN _ _ =>
              match current_method s with
              | Some _ => compiler_parse_loop fuel' rest (emit (NToken token) s)
              | None => Raise (KSPLCompileError "Return outside of method")
              end
          | IF_STMT condition line =>
              let '(then_branch, rest1) := collect_branch ends_then rest in
              match rest1 with
              | ELSE_STMT _ :: rest2 =>
                  let '(else_branch, rest3) := collect_branch ends_else rest2 in
                  compiler_parse_loop fuel' (tail rest3)
                    (emit (NIf condition then_branch else_branch line) s)
              | _ =>
                  compiler_parse_loop fuel' (tail rest1)
                    (emit (NIf condition then_branch [] line) s)
              end
          | ELSE_STMT _ | BRACE_CLOSE _ => compiler_parse_loop fuel' rest s
          end
      end
  end.

(** [KSPLCompiler.parse(tokens)] *)
Definition compiler_parse (tokens : list Token) : Outcome Ast :=
  compiler_parse_loop (length tokens) tokens
    {| ps_ast := {| ast_classes := ∅; global_code := []; imports := [] |};
       current_class := None; current_method := None |}.

(** ** Code generation *)

(** The instruction dicts of [generate_code], by their ['op']. *)
Module Op.
Inductive Instruction :=
| STORE (target expr : string)
| ASSIGN (target expr : string)
| RETURN (expr : string)
| EXEC (expr : string)
| STORE_GLOBAL (target expr : string)
| ASSIGN_GLOBAL (target expr : string)
| EXEC_GLOBAL (expr : string).
End Op.

(** The [executable_method] dict. *)
Record ExecutableMethod := {
  x_params : list string;
  instructions : list Op.Instruction
}.

(** The [executable_class] dict; ['fields'] is the table of the AST. *)
Record ExecutableClass := {
  x_name : string;
  x_methods : gmap string ExecutableMethod;
  x_fields : gmap string (string * Z);
  constructor : option ExecutableMethod
}.

Record Metadata := { version : string; compiler : string }.

(** The [executable] dict. *)
Record Executable := {
  x_classes : gmap string ExecutableClass;
  global_instructions : list Op.Instruction;
  metadata : Metadata
}.

(** The [if/elif] chain on [stmt['type']] in the loop over a method body:
    it has four cases and no [else], so a [STATEMENT] token and the [IF]
    dict of a conditional add no instruction. *)
Definition method_instruction (stmt : Node) : option Op.Instruction :=
  match stmt with
  | NToken (LET_DEF value expr _) => Some (Op.STORE value expr)
  | NToken (ASSIGNMENT target expr _) => Some (Op.ASSIGN target expr)
  | NToken (RETURN expr _) => Some (Op.RETURN expr)
  | NToken (EXPRESSION value _) => Some (Op.EXEC value)
  | _ => None
  end.

(** The chain in the loop over [ast['global_code']]: three cases. *)
Definition global_instruction (stmt : Node) : option Op.Instruction :=
  match stmt with
  | NToken (LET_DEF value expr _) => Some (Op.STORE_GLOBAL value expr)
  | NToken (ASSIGNMENT target expr _) => Some (Op.ASSIGN_GLOBAL target expr)
  | NToken (EXPRESSION value _) => Some (Op.EXEC_GLOBAL value)
  | _ => None
  end.

Definition generate_method (method_info : MethodAst) : ExecutableMethod :=
  {| x_params := m_params method_info;
     instructions := omap method_instruction (m_body method_info) |}.

(** The body of the loop over [ast['classes'].items()]; ['constructor'] is
    the compiled method stored under ['init'], if there is one. *)
Definition generate_class (class_name : string) (class_info : ClassAst)
  : ExecutableClass :=
  let compiled := generate_method <$> c_methods class_info in
  {| x_name := class_name;
     x_methods := compiled;
     x_fields := c_fields class_info;
     constructor := compiled !! "init" |}.

(** [KSPLCompiler.generate_code(ast)] *)
Definition generate_code (ast : Ast) : Executable :=
  {| x_classes :=
       map_imap (fun class_name class_info =>
                   Some (generate_class class_name class_info))
         (ast_classes ast);
     global_instructions := omap global_instruction (global_code ast);
     metadata := {| version := "1.0"; compiler := "KSPL Compiler" |} |}.

(** [KSPLCompiler.compile(source)] *)
Definition compile (source : string) : Outcome Executable :=
  match compiler_parse (tokenize source) with
  | Ok ast => Ok (generate_code ast)
  | Raise e => Raise e
  end.

(* ================================================================== *)
(** * Concrete programs and a concrete host *)
(* ================================================================== *)

(** A source text from its lines. *)
Definition program (lines : list string) : string :=
  foldr (fun l acc =>
           match acc with
           | EmptyString => l
           | _ => l +:+ String Py.newline acc
           end) EmptyString lines.

(** A host that offers nothing beyond the interpreter: its fallback
    evaluator rejects every text, no value has an attribute outside an
    instance [__dict__], no host value is a dict or callable; its limit on
    integer texts is CPython's default, and it gives every float text one
    code.  The concrete runs below that use it consult it only where
    Python answers the same (the fallback on a text that is no Python
    expression, such as a closing brace; an attribute that [int] does not
    have), and none of them evaluates a float. *)
Definition bare_host : Host :=
  {| py_eval := fun _ _ st => (st, None);
     py_getattr := fun _ _ _ => None;
     py_setattr := fun v prop _ => raise (AttributeError (type_name v) prop);
     py_dict_item := fun _ _ => None;
     py_callable := fun _ => false;
     py_call := fun _ _ => raise (HostError "not callable");
     py_truth := fun _ => true;
     py_float := fun _ => 0%nat;
     int_max_str_digits := 4300 |}.

(** The class of the specification's example. *)
Definition counter_class : list string :=
  ["class Counter {";
   "field n = 0";
   "fn init(start) {";
   "self.n = start";
   "}";
   "fn inc() {";
   "self.n = self.n + 1";
   "return self.n";
   "}";
   "}"].

(** A method with the conditional of the specification's example and a
    statement after it. *)
Definition if_class : list string :=
  ["class A {";
   "fn f() {";
   "if (true) {";
   "return 1";
   "} else {";
   "return 2";
   "}";
   "let after = 3";
   "}";
   "}"].

(** The body that the compiler's [parse] records for a method. *)
Definition method_body (a : Ast) (cls meth : string) : option (list Node) :=
  m_body <$> (ast_classes a !! cls ≫= fun c => c_methods c !! meth).

(** A class with a method of two parameters and no [init], and the
    interpreter after a program has declared it and bound [p] to an
    instance. *)
Definition scale_class : list string :=
  ["class P {";
   "fn scale(a, b) {";
   "return b";
   "}";
   "}"].

Definition scale_state : Interpreter :=
  fst (run bare_host 2 (program (scale_class ++ ["p = P()"])) new_interpreter).

(** A class whose method shows that its body ran and what it found in its
    second parameter, and the interpreter after a program has declared it
    and bound [p] to an instance. *)
Definition probe_class : list string :=
  ["class P {";
   "fn scale(a, b) {";
   "seen = b";
   "return a";
   "}";
   "}"].

Definition probe_state : Interpreter :=
  fst (run bare_host 2 (program (probe_class ++ ["p = P()"])) new_interpreter).

(** A class whose [init] shows that its body ran. *)
Definition init_class : list string :=
  ["class K {";
   "fn init(start) {";
   "hit = 1";
   "}";
   "}"].

(* ================================================================== *)
(** * Notions used to state the properties *)
(* ================================================================== *)

(** A line that [tokenize] skips: blank, or a comment. *)
Definition skipped (raw_line : string) : bool :=
  Py.is_empty (Py.strip raw_line) || Py.startswith (Py.strip raw_line) "//".

(** The brace depth behind a line, and behind a run of lines. *)
Definition line_depth (depth : Z) (line : string) : Z :=
  depth + Py.count "{" line - Py.count "}" line.

Definition depth_after (depth : Z) (lines : list string) : Z :=
  fold_left line_depth lines depth.

(** A block that the lines leave open: the depth is positive before each
    of them and behind the last. *)
Fixpoint stays_open (depth : Z) (lines : list string) : bool :=
  (0 <? depth)
  && match lines with
     | [] => true
     | line :: rest => stays_open (line_depth depth line) rest
     end.


(** The texts that [eval_expression] reads as literals, before any other
    case: a quoted string, [true], [false], [null], an integer, a float. *)
Definition literal (e : string) : bool :=
  (Py.startswith e (String Py.dquote "") && Py.endswith_char e Py.dquote)
  || (Py.startswith e "'" && Py.endswith_char e "'")
  || Py.eqs e "true" || Py.eqs e "false" || Py.eqs e "null"
  || Re.matches Re.int_literal e
  || Re.matches Re.float_literal e.

Definition ends_paren (s : string) : bool := Py.endswith_char s ")".

(** ** Argument splitting, as the specification words it

    The arguments of a call are the pieces of the argument text between
    the commas that stand at parenthesis depth zero and outside string
    literals.  [ArgSpec] spells this out position by position, without the
    accumulators of the source: [quote_after] and [depth_after] give the
    string literal and the depth a character leaves behind,
    [top_level_comma] says where the text is divided, [pieces] cuts it
    there. *)
Module ArgSpec.

Definition quote_after (quote : option ascii) (c : ascii) : option ascii :=
  if is_quote c then
    match quote with
    | None => Some c
    | Some q => if Py.eqc q c then None else Some q
    end
  else quote.

Definition depth_after (quote : option ascii) (depth : Z) (c : ascii) : Z :=
  match quote with
  | Some _ => depth
  | None =>
      if Py.eqc c "(" then depth + 1
      else if Py.eqc c ")" then depth - 1
      else depth
  end.

Definition top_level_comma (quote : option ascii) (depth : Z) (c : ascii) : bool :=
  Py.eqc c "," && (depth =? 0) && bool_decide (quote = None).

Fixpoint pieces (quote : option ascii) (depth : Z) (text : list ascii)
  : list (list ascii) :=
  match text with
  | [] => [[]]
  | c :: rest =>
      if top_level_comma quote depth c then [] :: pieces quote depth rest
      else
        match pieces (quote_after quote c) (depth_after quote depth c) rest with
        | p :: ps => (c :: p) :: ps
        | [] => [[c]]
        end
  end.

(** The text the pieces came from: the pieces with a comma between them. *)
Fixpoint rejoin (ps : list (list ascii)) : list ascii :=
  match ps with
  | [] => []
  | [p] => p
  | p :: ps' => p ++ ","%char :: rejoin ps'
  end.

(** A last piece with no character at all is no argument (the text was
    empty, or ended in a dividing comma). *)
Fixpoint drop_empty_last (ps : list (list ascii)) : list (list ascii) :=
  match ps with
  | [] => []
  | [[]] => []
  | p :: ps' => p :: drop_empty_last ps'
  end.

(** An argument is its piece without the surrounding blanks. *)
Definition argument (p : list ascii) : string := Py.strip (Py.join_chars p).

Definition split (text : string) : list string :=
  map argument (drop_empty_last (pieces None 0 (list_ascii_of_string text))).

End ArgSpec.

(** The end of [split_arguments]: the current piece, if it has a character,
    is the last argument. *)
Definition finish (s : SplitState) : list string :=
  match sp_current s with
  | [] => sp_args s
  | _ => sp_args s ++ [Py.strip (Py.join_chars (sp_current s))]
  end.

(** The pieces of the rest of the text, behind the characters already
    collected for the current argument. *)
Definition prepend (cur : list ascii) (ps : list (list ascii)) : list (list ascii) :=
  match ps with
  | p :: ps' => (cur ++ p) :: ps'
  | [] => [cur]
  end.

(** ** Programs and their declarations *)

(** The names, in order, of the global functions among the parsed
    statements. *)
Definition function_names (statements : list ParsedStmt) : list string :=
  omap (fun s => match s with PFunction f _ _ => Some f | _ => None end) statements.

(** The parameters and the body of the last global function. *)
Definition last_function (statements : list ParsedStmt)
  : option (list string * list string) :=
  last (omap (fun s => match s with
                       | PFunction _ ps b => Some (ps, b)
                       | _ => None
                       end) statements).

Definition is_class (s : ParsedStmt) : bool :=
  match s with PClass _ _ => true | _ => false end.

Definition is_stmt (s : ParsedStmt) : bool :=
  match s with PStmt _ => true | _ => false end.

(** A line that [parse] takes for the header of a class or of a
    function. *)
Definition header_line (line : string) : bool :=
  Py.startswith line "class " || Py.startswith line "fn ".

(** ** Lines and tokens *)

(** Whether the turn of [tokenize] on a line advances the line counter. *)
Definition advances (raw_line : string) : bool :=
  match tokenize_line raw_line 0 with
  | (None, _) | (Some (EXPRESSION _ _ | STATEMENT _ _), _) => true
  | _ => false
  end.

Definition is_class_def (t : Token) : bool :=
  match t with CLASS_DEF _ _ => true | _ => false end.

Definition is_if_stmt (t : Token) : bool :=
  match t with IF_STMT _ _ => true | _ => false end.

Definition is_return (t : Token) : bool :=
  match t with RETURN _ _ => true | _ => false end.

(** A line that [tokenize] reads as the header of a conditional. *)
Definition if_line (raw_line : string) : bool :=
  match tokenize_line raw_line 0 with
  | (Some (IF_STMT _ _), _) => true
  | _ => false
  end.

(** [generate_code] on the outcome of [parse]; a failure of [parse] is
    the failure of [compile]. *)
Definition generated (o : Outcome Ast) : Outcome Executable :=
  match o with
  | Ok ast => Ok (generate_code ast)
  | Raise e => Raise e
  end.

(** The test of [parse] for a line it drops. *)
Definition blank_or_comment (line : string) : bool :=
  Py.is_empty line || Py.startswith line "//".

(** The tokens that [parse] appends as they are: [let], assignment,
    expression and generic statement. *)
Definition is_plain (t : Token) : bool :=
  match t with
  | LET_DEF _ _ _ | ASSIGNMENT _ _ _ | EXPRESSION _ _ | STATEMENT _ _ => true
  | _ => false
  end.

(** The tokens of a method body: the plain ones and [return]. *)
Definition is_body_token (t : Token) : bool := is_plain t || is_return t.

(** ** Argument texts *)

(** [', '.join(args)] *)
Fixpoint join_arguments (args : list string) : string :=
  match args with
  | [] => EmptyString
  | [a] => a
  | a :: rest => a +:+ ", " +:+ join_arguments rest
  end.

(** A text that can stand for one argument: from the given string literal
    and depth on, no comma of it divides the argument text, and at its end
    no string literal is open and the depth is zero. *)
Fixpoint closed (quote : option ascii) (depth : Z) (text : list ascii) : bool :=
  match text with
  | [] => bool_decide (quote = None) && (depth =? 0)
  | c :: rest =>
      negb (ArgSpec.top_level_comma quote depth c)
      && closed (ArgSpec.quote_after quote c) (ArgSpec.depth_after quote depth c) rest
  end.

(** An argument as a call is written with: not empty, without
    surrounding blanks, its parentheses and string literals closed. *)
Definition well_formed_argument (a : string) : bool :=
  negb (Py.is_empty a) && Py.eqs (Py.strip a) a
  && closed None 0 (list_ascii_of_string a).

(** ** Class bodies *)

(** A line that [load_class] reads as a field declaration. *)
Definition field_line (raw_line : string) : bool :=
  Py.startswith (Py.strip raw_line) "field ".

(** ** Statements and blocks *)


(** How far a block has come behind some of its statements: it is still
    running, with its scope and the result of the last statement, or a
    result with a true ['__return__'] entry has ended it. *)
Inductive Progress :=
| Running (local_env : Env) (result : Value)
| Returned (v : Value).

(** The loop of [execute_block] over the first statements of a block,
    with the scope it leaves. *)
Fixpoint run_statements (host : Host) (exec : string -> Env -> M (Value * Env))
    (statements : list string) (local_env : Env) (result : Value) : M Progress :=
  match statements with
  | [] => ret (Running local_env result)
  | stmt :: rest =>
      r <- exec stmt local_env;;
      let '(result, local_env) := r in
      match dict_item host result "__return__" with
      | Some flag =>
          if truthy host flag then
            match dict_item host result "value" with
            | Some v => ret (Returned v)
            | None => raise (KeyError "value")
            end
          else run_statements host exec rest local_env result
      | None => run_statements host exec rest local_env result
      end
  end.

(** The outcome of a block from its progress behind all its
    statements. *)
Definition finish_block (r : Interpreter * Outcome Progress)
  : Interpreter * Outcome Value :=
  match r with
  | (st, Ok (Running _ result)) => (st, Ok result)
  | (st, Ok (Returned v)) => (st, Ok v)
  | (st, Raise e) => (st, Raise e)
  end.

(** The integer texts that the host refuses for their length. *)
Definition over_the_digit_limit (host : Host) (expr : string) : bool :=
  (640 <? Py.count_digits expr) && (0 <? int_max_str_digits host)
  && (int_max_str_digits host <? Py.count_digits expr).

(* ================================================================== *)
(** * Properties *)
(* ================================================================== *)

(** ** The primitives on small inputs *)

Example re_class_header :
  Re.rmatch Re.class_header "class  Counter {" = Some ["Counter"]
  /\ Re.rmatch Re.class_header "class {" = None.
Proof. split; reflexivity. Qed.

Example re_fn_header :
  Re.rmatch Re.fn_header "fn add(a, b) {" = Some ["add"; "a, b"]
  /\ split_params "a, b" = ["a"; "b"].
Proof. split; reflexivity. Qed.

Example re_assignment :
  Re.rmatch Re.assignment "self.n = self.n + 1" = Some ["self.n"; "self.n + 1"]
  /\ Re.rmatch Re.assignment "return x == 1" = None
  /\ Re.rmatch Re.assignment "x == 1" = Some ["x"; "= 1"].
Proof. repeat split; reflexivity. Qed.

Example re_if_headers :
  Re.rmatch Re.if_header_compiler "if (true) {" = Some ["(true) "]
  /\ Re.rmatch Re.if_header "if  {" = Some [" "]
  /\ Re.rmatch Re.if_header "if {" = None.
Proof. repeat split; reflexivity. Qed.

Example re_call :
  Re.rmatch Re.call "f(g(1,2), 3)" = Some ["f"; "g(1,2), 3"]
  /\ Re.rmatch Re.call "(true)" = None.
Proof. split; reflexivity. Qed.

Example re_int_literal :
  Re.rmatch Re.int_literal "-12" = Some [] /\ Py.parse_int "-12" = -12
  /\ Re.rmatch Re.int_literal "1.5" = None
  /\ Re.rmatch Re.float_literal "1.5" = Some [].
Proof. repeat split; reflexivity. Qed.

Example py_strip_split :
  Py.strip "  a b  " = "a b" /\ Py.split "." "a.b." = ["a"; "b"; ""]
  /\ Py.inner "'ab'" = "ab".
Proof. repeat split; reflexivity. Qed.

Lemma eqc_true a b : Py.eqc a b = true -> a = b.
Proof. unfold Py.eqc. apply Ascii.eqb_eq. Qed.

(** ** Statements and blocks *)

Lemma startswith_cons s p c :
  Py.startswith s (String c p) = true ->
  exists s', s = String c s' /\ Py.startswith s' p = true.
Proof.
  destruct s as [|d s']; cbn [Py.startswith]; [done|].
  intros H. apply andb_prop in H as [Hc Hp]. apply eqc_true in Hc. subst d. eauto.
Qed.

(** A [return] statement is executed like an expression statement: the
    block takes the value of its expression for the result so far and goes
    on with the statements that follow, unless that value is a host dict
    with a ['__return__'] entry. *)
Lemma return_is_an_ordinary_statement host fuel stmt rest local_env st st' v :
  Py.startswith (Py.strip stmt) "return " = true ->
  Re.match2 Re.assignment (Py.strip stmt) = None ->
  eval_expression host fuel (Py.strip (Py.drop_chars 7 (Py.strip stmt)))
    local_env st = (st', Ok v) ->
  dict_item host v "__return__" = None ->
  execute_block host (S fuel) (stmt :: rest) local_env st
  = execute_block_loop host (execute_statement_body host (eval_expression host fuel))
      rest local_env v st'.
Proof.
  intros Hret Hassign Heval Hdict.
  cbn [execute_block]. unfold execute_block_body. cbn [execute_block_loop].
  unfold bind at 1. unfold execute_statement_body at 1.
  destruct (startswith_cons _ _ _ Hret) as (s' & Hs & _).
  assert (Py.is_empty (Py.strip stmt) || Py.startswith (Py.strip stmt) "//"
          = false) as -> by (rewrite Hs; reflexivity).
  assert (Py.startswith (Py.strip stmt) "let " = false) as ->
    by (rewrite Hs; reflexivity).
  rewrite Hassign, Hret. unfold bind at 1. rewrite Heval.
  unfold ret. rewrite Hdict. reflexivity.
Qed.

(** C1.  A [return] statement does not end the call.  [execute_statement]
    hands the value of the [return] expression back like the value of any
    other statement, and the loop of [execute_block] leaves early only on a
    dict with a true ['__return__'] entry, which no statement builds: after
    [return 1] the block goes on, and the call yields the value of its last
    statement.  On every host: a body [return 1; return 2] yields 2, and in
    the program below the call [f()] runs [after = 2] after its [return 1]
    and yields 2. *)
Theorem C1_return_does_not_end_the_call :
  forall (host : Host) (fuel : nat),
    (forall (local_env : Env) (st : Interpreter),
        execute_block host (S (S fuel)) ["return 1"; "return 2"] local_env st
        = (st, Ok (VInt 2)))
    /\ (let '(st, o) :=
          run host (S (S (S fuel)))
            (program ["fn f() {"; "return 1"; "after = 2"; "}"; "r = f()"])
            new_interpreter in
        o = Ok tt
        /\ globals st !! "r" = Some (VInt 2)
        /\ globals st !! "after" = Some (VInt 2)).
Proof.
  intros host fuel. split.
  - intros local_env st. reflexivity.
  - vm_compute. repeat split.
Qed.

(** C2.  An [if] header is a statement of its own for the interpreter: it
    evaluates the condition and returns it, and the lines of both branches
    are ordinary statements of the enclosing body.  On every host a block
    behaves the same whether its [if] header tests [true] or [false]; the
    specification's function fails at its header, whose condition [(true)]
    is taken for a call without a name; on a host whose fallback
    evaluator rejects a closing brace, as Python's does, the branch under
    [if false] runs ([hit] is bound to 1) before the brace fails.  The
    compiler's [parse] does collect two branches, but up to a [BRACE_CLOSE]
    token that [tokenize] never emits: the else branch of the example takes
    every token to the end of the input, the statement after the
    conditional included. *)
Theorem C2_if_header_selects_no_branch :
  forall (host : Host) (fuel : nat),
    (forall (s : string) (rest : list string) (local_env : Env) (st : Interpreter),
        execute_block host (S (S fuel)) ("if true {" :: s :: rest) local_env st
        = execute_block host (S (S fuel)) ("if false {" :: s :: rest) local_env st)
    /\ snd (run host (S (S (S fuel)))
              (program ["fn f() {"; "if (true) {"; "return 1"; "} else {";
                        "return 2"; "}"; "}"; "r = f()"])
              new_interpreter)
       = Raise (KSPLRuntimeError "Invalid function call: (true)")
    /\ (let '(st, o) :=
          run bare_host (S (S (S fuel)))
            (program ["fn f() {"; "if false {"; "hit = 1"; "}"; "}"; "r = f()"])
            new_interpreter in
        o = Raise (KSPLRuntimeError "Could not evaluate expression: }")
        /\ globals st !! "hit" = Some (VInt 1))
    /\ match compiler_parse (tokenize (program if_class)) with
       | Ok a =>
           method_body a "A" "f"
           = Some [NIf "(true) " [RETURN "1" 1]
                     [RETURN "2" 1; STATEMENT "}" 1; LET_DEF "after" "3" 2;
                      STATEMENT "}" 2; STATEMENT "}" 3] 1]
       | Raise _ => False
       end.
Proof.
  intros host fuel. split; [|split; [|split]].
  - intros s rest local_env st. reflexivity.
  - vm_compute. reflexivity.
  - vm_compute. split; reflexivity.
  - vm_compute. reflexivity.
Qed.

(** ** Objects *)

(** A class with an [init] method cannot be instantiated: [__init__] passes
    [None] for the interpreter, and [call_method] needs it to run the
    body.  The instance is allocated, with the fields of the class, and
    nothing else happens: whatever would run the body is never called.
    (A field named [_klass] or [call_method] would hide the class or the
    method from the call.) *)
Lemma new_object_with_init_raises host block_rec c klass init args st :
  klasses st !! c = Some klass ->
  methods klass !! "init" = Some init ->
  fields klass !! "_klass" = None ->
  fields klass !! "call_method" = None ->
  new_object host block_rec c args st
  = (set_objects (fun os => os ++ [fields klass ∪ {[ "_klass" := VKlass c ]}]) st,
     Raise (AttributeError "NoneType" "execute_block")).
Proof.
  intros Hk Hinit Hfield Hhidden.
  unfold new_object, bind, get, modify. rewrite Hk, Hinit.
  unfold bound_call_method, bind, get. cbn [objects set_objects].
  rewrite list_lookup_middle by done.
  assert ((fields klass ∪ {[ "_klass" := VKlass c ]} : Env) !! "call_method" = None)
    as -> by (by apply lookup_union_None).
  unfold call_method, bind, klass_of. cbn [objects klasses set_objects].
  rewrite list_lookup_middle by done.
  rewrite lookup_union_r by done. rewrite lookup_singleton_eq, Hk, Hinit.
  reflexivity.
Qed.

(** C3.  Constructing an instance of a class that declares [init] fails.
    [KSPLObject.__init__] calls [call_method('init', None, args)], and
    [call_method] reaches [interpreter.execute_block] with [interpreter]
    being [None]: the constructor raises [AttributeError] before a line of
    [init] runs.  On every host the specification's [Counter(5)] raises it,
    and no global [c] is bound. *)
Theorem C3_constructor_with_init_raises :
  forall (host : Host) (fuel : nat),
    let '(st, o) :=
      run host (S (S fuel)) (program (counter_class ++ ["c = Counter(5)"]))
        new_interpreter in
    o = Raise (AttributeError "NoneType" "execute_block")
    /\ globals st !! "c" = None.
Proof.
  intros host fuel. vm_compute. split; reflexivity.
Qed.

(** ** Parsing *)

Lemma scan_block_stops lines : forall depth acc,
  let '(_, rest, d) := scan_block lines depth acc in d <= 0 \/ rest = [].
Proof.
  induction lines as [|l lines IH]; intros depth acc; simpl; [by right|].
  destruct (0 <? depth) eqn:Hd.
  - apply IH.
  - left. lia.
Qed.

Lemma scan_block_rest_length lines : forall depth acc,
  (length (scan_block lines depth acc).1.2 <= length lines)%nat.
Proof.
  induction lines as [|l lines IH]; intros depth acc; simpl; [lia|].
  destruct (0 <? depth); simpl; [|lia].
  etrans; [apply IH|lia].
Qed.

Lemma scan_block_done lines depth acc :
  depth <= 0 -> scan_block lines depth acc = (acc, lines, depth).
Proof.
  intros Hd. destruct lines as [|l lines]; simpl; [done|].
  destruct (0 <? depth) eqn:H; [lia|done].
Qed.


(** The scan ends behind the first line that brings the depth to zero or
    below; that line is not part of the body. *)
Lemma scan_block_closed pre : forall closing post depth acc,
  stays_open depth pre = true ->
  depth_after depth (pre ++ [closing]) <= 0 ->
  scan_block (pre ++ closing :: post) depth acc
  = (acc ++ pre, post, depth_after depth (pre ++ [closing])).
Proof.
  induction pre as [|l pre IH]; intros closing post depth acc Hopen Hclose;
    simpl in *.
  - apply andb_prop in Hopen as [Hd _]. rewrite Hd.
    fold (line_depth depth closing). unfold depth_after in Hclose.
    simpl in Hclose.
    assert ((0 <? line_depth depth closing) = false) as -> by lia.
    rewrite scan_block_done by done. by rewrite app_nil_r.
  - apply andb_prop in Hopen as [Hd Hrest]. rewrite Hd.
    fold (line_depth depth l).
    assert ((0 <? line_depth depth l) = true) as ->.
    { destruct pre; simpl in Hrest; by apply andb_prop in Hrest as [? _]. }
    rewrite IH by done. by rewrite <- app_assoc.
Qed.






Lemma drop_behind_header {A} (before : list A) header rest :
  drop (S (length before)) (before ++ header :: rest) = rest.
Proof.
  rewrite (cons_middle header before), app_assoc.
  rewrite drop_app_length'; [done|]. rewrite length_app. simpl. lia.
Qed.

Lemma closed_block_index (before pre post : list string) (header closing : string) :
  (length (before ++ header :: pre ++ closing :: post) - length post)%nat
  = (length before + length pre + 2)%nat.
Proof. rewrite !length_app. cbn [length]. rewrite length_app. cbn [length]. lia. Qed.


Lemma parse_function_closed before header fn_name params_text closing pre post :
  Re.match2 Re.fn_header header = Some (fn_name, params_text) ->
  stays_open 1 pre = true ->
  depth_after 1 (pre ++ [closing]) <= 0 ->
  parse_function (before ++ header :: pre ++ closing :: post) (length before)
  = Ok (PFunction fn_name (split_params params_text) pre,
        (length before + length pre + 2)%nat).
Proof.
  intros Hre Hopen Hclose. unfold parse_function.
  rewrite list_lookup_middle by done. rewrite Hre, drop_behind_header.
  rewrite (scan_block_closed _ _ _ _ _ Hopen Hclose). cbn [app].
  by rewrite closed_block_index.
Qed.





(** ** The tokenizer *)

Lemma tokenize_line_skipped raw n :
  skipped raw = true -> tokenize_line raw n = (None, n + 1).
Proof. unfold skipped, tokenize_line. intros ->. reflexivity. Qed.

Lemma tokenize_line_token raw n :
  skipped raw = false ->
  exists t n', tokenize_line raw n = (Some t, n')
               /\ token_line t = n /\ (n' = n \/ n' = n + 1).
Proof.
  unfold skipped, tokenize_line. intros ->.
  repeat case_match; eauto 10.
Qed.

Lemma tokenize_lines_length lines : forall n,
  length (tokenize_lines lines n)
  = length (List.filter (fun l => negb (skipped l)) lines).
Proof.
  induction lines as [|l lines IH]; intros n; [reflexivity|].
  simpl. destruct (skipped l) eqn:Hs.
  - rewrite (tokenize_line_skipped _ _ Hs). simpl. apply IH.
  - destruct (tokenize_line_token l n Hs) as (t & n' & -> & _ & _).
    simpl. f_equal. apply IH.
Qed.

(** The tokenizer has no case for a closing brace: it never produces the
    [BRACE_CLOSE] token that the compiler's [parse] waits for. *)
Lemma tokenize_line_no_brace_close raw n line :
  (tokenize_line raw n).1 <> Some (BRACE_CLOSE line).
Proof. unfold tokenize_line. repeat case_match; simpl; congruence. Qed.

(** Which tokens advance the line counter: only the two generic kinds. *)
Lemma tokenize_line_counter raw n t n' :
  tokenize_line raw n = (Some t, n') ->
  token_line t = n
  /\ n' = match t with
          | EXPRESSION _ _ | STATEMENT _ _ => n + 1
          | _ => n
          end.
Proof.
  unfold tokenize_line. repeat case_match; intros [= <- <-]; done.
Qed.

(** C9.  [tokenize] is total and gives one token for each line that is
    neither blank nor a comment, but the line a token records is not the
    line of its construct: the cases for class, function, field, [let],
    assignment, [return], [if] and [else] end in [continue] before the
    [line_num += 1] at the foot of the loop, so a token of these kinds
    leaves the counter where it was.  Two [let] lines both record line 1,
    and a class header on line 1 puts the closing brace of line 3 on
    line 1. *)
Theorem C9_tokens_record_stale_line_numbers :
  (forall source : string,
      length (tokenize source)
      = length (List.filter (fun l => negb (skipped l))
                  (Py.split Py.newline source)))
  /\ tokenize (program ["let x = 1"; "let y = 2"])
     = [LET_DEF "x" "1" 1; LET_DEF "y" "2" 1]
  /\ tokenize (program ["class A {"; "field n = 0"; "}"])
     = [CLASS_DEF "A" 1; FIELD_DEF "n" "0" 1; STATEMENT "}" 1].
Proof.
  split; [|split].
  - intros source. apply tokenize_lines_length.
  - reflexivity.
  - reflexivity.
Qed.

(** ** Assignment and the global namespace *)

Lemma match2_rmatch r s p :
  Re.match2 r s = Some p -> exists caps, Re.rmatch r s = Some caps.
Proof. unfold Re.match2. destruct (Re.rmatch r s); [eauto|done]. Qed.

Lemma rmatch_assignment_head s caps :
  Re.rmatch Re.assignment s = Some caps ->
  exists c s', s = String c s' /\ Re.dotted c = true.
Proof.
  unfold Re.rmatch, Re.assignment, Re.seq. simpl.
  destruct s as [|c s']; simpl; [done|].
  destruct (Re.dotted c) eqn:Hc; [eauto|done].
Qed.

Lemma dotted_head_not_comment c s' :
  Re.dotted c = true ->
  Py.is_empty (String c s') || Py.startswith (String c s') "//" = false.
Proof.
  intros Hc. cbn [Py.is_empty Py.startswith orb].
  destruct (Py.eqc "/" c) eqn:He; [|done].
  apply eqc_true in He. subst c. done.
Qed.

(** C5, as stated, fails: in a call scope that binds only [self], the
    assignment [x = 1] leaves the scope as it was and binds [x] in the
    global namespace. *)
Lemma C5_unbound_name_is_bound_globally :
  match execute_statement bare_host 1 "x = 1" {[ "self" := VNone ]} new_interpreter with
  | (st, Ok (_, local_env)) =>
      local_env !! "x" = None
      /\ globals st !! "x" = Some (VInt 1)
      /\ globals new_interpreter !! "x" = None
  | _ => False
  end.
Proof. vm_compute. repeat split. Qed.

(** C5, amended.  The interpreter has two scopes, the local environment of
    the call and the global namespace.  A plain assignment [name = expr]
    (a statement that does not start with [let] and whose target has no
    dot) first evaluates [expr]; if the local environment binds [name] it
    rebinds it there and the global namespace is not written; otherwise it
    binds [name] in the global namespace, new or not, and the local
    environment stays as it was. *)
Theorem C5_plain_assignment_sets_local_or_global :
  forall (host : Host) (fuel : nat) (stmt target expr : string)
         (local_env : Env) (st st' : Interpreter) (value : Value),
    Py.startswith (Py.strip stmt) "let " = false ->
    Re.match2 Re.assignment (Py.strip stmt) = Some (target, expr) ->
    Py.contains "." target = false ->
    eval_expression host fuel expr local_env st = (st', Ok value) ->
    execute_statement host fuel stmt local_env st
    = match local_env !! target with
      | Some _ => (st', Ok (value, <[target := value]> local_env))
      | None =>
          (set_globals (fun g => <[target := value]> g) st', Ok (value, local_env))
      end.
Proof.
  intros host fuel stmt target expr local_env st st' value Hlet Hassign Hdot Heval.
  unfold execute_statement, execute_statement_body.
  destruct (match2_rmatch _ _ _ Hassign) as (caps & Hcaps).
  destruct (rmatch_assignment_head _ _ Hcaps) as (c & s' & Hs & Hc).
  rewrite Hs in *. rewrite (dotted_head_not_comment _ _ Hc).
  rewrite Hlet, Hassign. unfold bind at 1. rewrite Heval, Hdot.
  destruct (local_env !! target); reflexivity.
Qed.

(** C5 on two statements: [total = 41] where the scope binds [total], and
    [x = 1] where it does not. *)
Lemma C5_witness :
  execute_statement bare_host 1 " total = 41 " {[ "total" := VInt 0 ]} new_interpreter
  = (new_interpreter, Ok (VInt 41, {[ "total" := VInt 41 ]}))
  /\ execute_statement bare_host 1 "x = 1" {[ "self" := VNone ]} new_interpreter
     = (set_globals (fun g => <["x" := VInt 1]> g) new_interpreter,
        Ok (VInt 1, {[ "self" := VNone ]})).
Proof.
  split.
  - exact (C5_plain_assignment_sets_local_or_global bare_host 1 " total = 41 "
             "total" "41" {[ "total" := VInt 0 ]} new_interpreter new_interpreter
             (VInt 41) eq_refl eq_refl eq_refl eq_refl).
  - exact (C5_plain_assignment_sets_local_or_global bare_host 1 "x = 1" "x" "1"
             {[ "self" := VNone ]} new_interpreter new_interpreter (VInt 1)
             eq_refl eq_refl eq_refl eq_refl).
Defined.

(** C6, as stated, fails: the statement [print = 5] replaces the builtin
    [print] in the global namespace. *)
Lemma C6_print_is_rebound :
  globals new_interpreter !! "print" = Some (VBuiltin "print")
  /\ (let '(st, o) := run bare_host 1 "print = 5" new_interpreter in
      o = Ok tt /\ globals st !! "print" = Some (VInt 5)).
Proof. vm_compute. repeat split. Qed.

(** C6, amended.  The builtins are seeded once, into the global namespace
    that plain assignment writes, and nothing guards them: for each callable
    that [setup_builtins] seeds, the one-statement program [b = 5] run on a
    fresh interpreter, on any host, ends normally and leaves [b] bound to 5
    instead of the builtin. *)
Theorem C6_assignment_rebinds_a_builtin :
  forall (host : Host) (fuel : nat) (b : string),
    b ∈ builtin_callables ->
    globals new_interpreter !! b = Some (VBuiltin b)
    /\ (let '(st, o) := run host (S fuel) (b +:+ " = 5") new_interpreter in
        o = Ok tt /\ globals st !! b = Some (VInt 5)).
Proof.
  intros host fuel b Hb. unfold builtin_callables in Hb.
  repeat (apply elem_of_cons in Hb as [->|Hb]; [vm_compute; done|]).
  by apply elem_of_nil in Hb.
Qed.

(** C6 for the builtin [transfer]. *)
Lemma C6_witness :
  globals new_interpreter !! "transfer" = Some (VBuiltin "transfer")
  /\ (let '(st, o) := run bare_host 1 "transfer = 5" new_interpreter in
      o = Ok tt /\ globals st !! "transfer" = Some (VInt 5)).
Proof.
  apply (C6_assignment_rebinds_a_builtin bare_host 0 "transfer").
  unfold builtin_callables. apply elem_of_cons. right. apply elem_of_cons. by left.
Defined.

(** ** Argument splitting *)

Lemma pieces_nonempty q d text : ArgSpec.pieces q d text <> [].
Proof.
  destruct text as [|c rest]; simpl; [done|].
  destruct (ArgSpec.top_level_comma q d c); [done|].
  destruct (ArgSpec.pieces _ _ rest); done.
Qed.

(** Cutting removes the dividing commas and nothing else. *)
Lemma rejoin_pieces text : forall q d,
  ArgSpec.rejoin (ArgSpec.pieces q d text) = text.
Proof.
  induction text as [|c rest IH]; intros q d; [reflexivity|].
  cbn [ArgSpec.pieces].
  destruct (ArgSpec.top_level_comma q d c) eqn:Hc.
  - unfold ArgSpec.top_level_comma in Hc.
    apply andb_prop in Hc as [Hc _]. apply andb_prop in Hc as [Hc _].
    apply eqc_true in Hc. subst c.
    pose proof (pieces_nonempty q d rest) as Hne. specialize (IH q d).
    destruct (ArgSpec.pieces q d rest) as [|p ps]; [done|].
    rewrite <- IH. reflexivity.
  - pose proof (pieces_nonempty (ArgSpec.quote_after q c)
                  (ArgSpec.depth_after q d c) rest) as Hne.
    specialize (IH (ArgSpec.quote_after q c) (ArgSpec.depth_after q d c)).
    destruct (ArgSpec.pieces _ _ rest) as [|p ps]; [done|].
    rewrite <- IH. destruct ps; reflexivity.
Qed.

Lemma split_step_comma s c :
  ArgSpec.top_level_comma (sp_string_char s) (sp_depth s) c = true ->
  split_step s c =
    {| sp_args := sp_args s ++ [ArgSpec.argument (sp_current s)];
       sp_current := []; sp_depth := sp_depth s;
       sp_string_char := sp_string_char s |}.
Proof.
  unfold ArgSpec.top_level_comma. intros H.
  apply andb_prop in H as [H Hq]. apply andb_prop in H as [Hc Hd].
  apply bool_decide_eq_true in Hq. apply eqc_true in Hc. subst c.
  unfold split_step. rewrite Hq, Hd. reflexivity.
Qed.

Lemma split_step_other s c :
  ArgSpec.top_level_comma (sp_string_char s) (sp_depth s) c = false ->
  split_step s c =
    {| sp_args := sp_args s; sp_current := sp_current s ++ [c];
       sp_depth := ArgSpec.depth_after (sp_string_char s) (sp_depth s) c;
       sp_string_char := ArgSpec.quote_after (sp_string_char s) c |}.
Proof.
  unfold ArgSpec.top_level_comma, split_step, ArgSpec.depth_after,
    ArgSpec.quote_after.
  intros H. destruct (is_quote c) eqn:Hquote.
  - assert (Py.eqc c "(" = false /\ Py.eqc c ")" = false) as [-> ->].
    { unfold is_quote in Hquote. apply orb_prop in Hquote as [Hq|Hq];
        apply eqc_true in Hq; subst c; split; reflexivity. }
    destruct (sp_string_char s); reflexivity.
  - destruct (sp_string_char s) as [q|]; [reflexivity|].
    destruct (Py.eqc c "(") eqn:Ho; [reflexivity|].
    destruct (Py.eqc c ")") eqn:Hc; [reflexivity|].
    rewrite andb_true_r in H. rewrite andb_comm, H. reflexivity.
Qed.

(** The loop of the source, from any of its states, against the cut of
    the rest of the text. *)
Lemma finish_split_loop text : forall s,
  finish (split_loop s text)
  = sp_args s ++
    map ArgSpec.argument
      (ArgSpec.drop_empty_last
         (prepend (sp_current s)
            (ArgSpec.pieces (sp_string_char s) (sp_depth s) text))).
Proof.
  induction text as [|c rest IH]; intros s; simpl.
  - unfold finish. rewrite app_nil_r.
    destruct (sp_current s); simpl; [by rewrite app_nil_r|done].
  - destruct (ArgSpec.top_level_comma (sp_string_char s) (sp_depth s) c) eqn:Hc.
    + rewrite IH, (split_step_comma _ _ Hc). simpl.
      pose proof (pieces_nonempty (sp_string_char s) (sp_depth s) rest) as Hne.
      destruct (ArgSpec.pieces (sp_string_char s) (sp_depth s) rest) as [|p ps];
        [done|].
      simpl. rewrite app_nil_r, <- app_assoc. simpl.
      destruct (sp_current s); reflexivity.
    + rewrite IH, (split_step_other _ _ Hc). simpl.
      pose proof (pieces_nonempty (ArgSpec.quote_after (sp_string_char s) c)
                    (ArgSpec.depth_after (sp_string_char s) (sp_depth s) c) rest)
        as Hne.
      destruct (ArgSpec.pieces _ _ rest) as [|p ps]; [done|].
      simpl. rewrite <- app_assoc. reflexivity.
Qed.

(** C7.  [split_arguments] divides the argument text at the commas that
    stand at parenthesis depth zero and outside string literals, and only
    there: its result is the list of the pieces that [ArgSpec] cuts at those
    commas, each without its surrounding blanks (a last piece with no
    character is dropped), and the pieces with a comma between them are the
    text again.  For the call [f(g(1,2), "a,b", 3)] the call pattern gives
    the argument text between the outer parentheses, and the split gives
    its three arguments. *)
Theorem C7_split_arguments_at_top_level_commas :
  (forall args_text : string, split_arguments args_text = ArgSpec.split args_text)
  /\ (forall args_text : string,
         ArgSpec.rejoin (ArgSpec.pieces None 0 (list_ascii_of_string args_text))
         = list_ascii_of_string args_text)
  /\ (let q := String Py.dquote EmptyString in
      let call := "f(g(1,2), " +:+ q +:+ "a,b" +:+ q +:+ ", 3)" in
      let args_text := "g(1,2), " +:+ q +:+ "a,b" +:+ q +:+ ", 3" in
      Re.match2 Re.call call = Some ("f", args_text)
      /\ split_arguments args_text = ["g(1,2)"; q +:+ "a,b" +:+ q; "3"]).
Proof.
  split; [|split].
  - intros args_text. unfold split_arguments, ArgSpec.split.
    fold (finish (split_loop {| sp_args := []; sp_current := []; sp_depth := 0;
                                sp_string_char := None |}
                    (list_ascii_of_string args_text))).
    rewrite finish_split_loop. simpl.
    destruct (ArgSpec.pieces None 0 (list_ascii_of_string args_text)); reflexivity.
  - intros args_text. apply rejoin_pieces.
  - split; reflexivity.
Qed.

(** ** Failures of calls and of property accesses *)

Lemma ends_paren_cons c s :
  c <> ")"%char -> ends_paren (String c s) = true -> ends_paren s = true.
Proof.
  unfold ends_paren, Py.endswith_char. destruct s as [|d s]; [|done].
  simpl. intros Hc H. exfalso. apply Hc. by apply eqc_true in H.
Qed.

(** A greedy run over a class without the closing parenthesis hands a text
    that ends in one to its continuation with that end. *)
Lemma star_ends_paren {R} cls s (k : string -> option R) x :
  (forall c, cls c = true -> c <> ")"%char) ->
  Re.star cls s k = Some x ->
  exists s2, k s2 = Some x /\ (ends_paren s = true -> ends_paren s2 = true).
Proof.
  intros Hcls. induction s as [|c s IH]; simpl; intros H; [eauto|].
  destruct (cls c) eqn:Hc; [|eauto].
  destruct (Re.star cls s k) eqn:Hs; [|eauto].
  destruct IH as (s2 & Hk & Hends); [done|].
  exists s2. split; [congruence|].
  intros He. apply Hends. eapply ends_paren_cons; [|done]. by apply Hcls.
Qed.

Lemma plus_ends_paren {R} cls s caps (k : string -> list string -> option R) x :
  (forall c, cls c = true -> c <> ")"%char) ->
  Re.run (Re.Plus cls) s caps k = Some x ->
  exists s2, k s2 caps = Some x /\ (ends_paren s = true -> ends_paren s2 = true).
Proof.
  intros Hcls. simpl. destruct s as [|c s]; [done|].
  destruct (cls c) eqn:Hc; [|done]. intros H.
  apply star_ends_paren in H as (s2 & Hk & Hends); [|done].
  exists s2. split; [done|]. intros He. apply Hends.
  eapply ends_paren_cons; [|done]. by apply Hcls.
Qed.

Lemma opt_minus_ends_paren {R} s caps (k : string -> list string -> option R) x :
  Re.run (Re.Opt "-") s caps k = Some x ->
  exists s2, k s2 caps = Some x /\ (ends_paren s = true -> ends_paren s2 = true).
Proof.
  simpl. destruct s as [|c s]; [eauto|].
  destruct (Py.eqc "-" c) eqn:Hc; [|eauto].
  destruct (k s caps) eqn:Hk; [|eauto].
  intros [= <-]. exists s. split; [done|].
  apply ends_paren_cons. apply eqc_true in Hc. by subst c.
Qed.

Lemma lit_dot_ends_paren {R} s caps (k : string -> list string -> option R) x :
  Re.run (Re.Lit ".") s caps k = Some x ->
  exists s2, k s2 caps = Some x /\ (ends_paren s = true -> ends_paren s2 = true).
Proof.
  simpl. destruct s as [|c s]; [done|]. simpl.
  destruct (Py.eqc "." c) eqn:Hc; [|done].
  intros H. exists s. split; [done|].
  apply ends_paren_cons. apply eqc_true in Hc. by subst c.
Qed.

Lemma digit_not_paren c : Py.isdigit c = true -> c <> ")"%char.
Proof. intros H ->. done. Qed.

Lemma eol_not_paren {R} s caps (k : string -> list string -> option R) x :
  Re.run Re.Eol s caps k = Some x -> ends_paren s = false.
Proof.
  simpl. destruct s as [|c [|]]; [done| |done].
  destruct (Py.eqc c Py.newline) eqn:Hc; [|done].
  apply eqc_true in Hc. by subst c.
Qed.

Lemma run_cat {R} r1 r2 s caps (k : string -> list string -> option R) :
  Re.run (Re.Cat r1 r2) s caps k
  = Re.run r1 s caps (fun s' caps' => Re.run r2 s' caps' k).
Proof. reflexivity. Qed.

(** A text that ends in a closing parenthesis is no number. *)
Lemma int_literal_not_call e :
  ends_paren e = true -> Re.matches Re.int_literal e = false.
Proof.
  intros He. unfold Re.matches.
  destruct (Re.rmatch Re.int_literal e) eqn:H; [exfalso|done].
  unfold Re.rmatch, Re.int_literal, Re.seq in H. cbn [foldr] in H.
  rewrite run_cat in H. apply opt_minus_ends_paren in H as (s2 & H & He2).
  rewrite run_cat in H.
  apply plus_ends_paren in H as (s3 & H & He3); [|apply digit_not_paren].
  rewrite run_cat in H. apply eol_not_paren in H.
  rewrite He3 in H; [done|]. auto.
Qed.

Lemma float_literal_not_call e :
  ends_paren e = true -> Re.matches Re.float_literal e = false.
Proof.
  intros He. unfold Re.matches.
  destruct (Re.rmatch Re.float_literal e) eqn:H; [exfalso|done].
  unfold Re.rmatch, Re.float_literal, Re.seq in H. cbn [foldr] in H.
  rewrite run_cat in H. apply opt_minus_ends_paren in H as (s2 & H & He2).
  rewrite run_cat in H.
  apply plus_ends_paren in H as (s3 & H & He3); [|apply digit_not_paren].
  rewrite run_cat in H. apply lit_dot_ends_paren in H as (s4 & H & He4).
  rewrite run_cat in H.
  apply plus_ends_paren in H as (s5 & H & He5); [|apply digit_not_paren].
  rewrite run_cat in H. apply eol_not_paren in H.
  rewrite He5 in H; [done|]. auto.
Qed.

Lemma rmatch_call_head s caps :
  Re.rmatch Re.call s = Some caps ->
  exists c s', s = String c s' /\ Re.dotted c = true.
Proof.
  unfold Re.rmatch, Re.call, Re.seq. simpl.
  destruct s as [|c s']; simpl; [done|].
  destruct (Re.dotted c) eqn:Hc; [eauto|done].
Qed.

(** What the interpreter takes for a call is none of its literals. *)
Lemma call_is_not_literal e p :
  Re.match2 Re.call e = Some p ->
  Py.contains "(" e = true ->
  Py.endswith_char e ")" = true ->
  literal e = false.
Proof.
  intros Hcall Hopen Hend. unfold literal.
  destruct (match2_rmatch _ _ _ Hcall) as (caps & Hcaps).
  destruct (rmatch_call_head _ _ Hcaps) as (c & s' & -> & Hc).
  rewrite int_literal_not_call, float_literal_not_call by done.
  assert (Py.startswith (String c s') (String Py.dquote "") = false) as ->.
  { cbn [Py.startswith]. destruct (Py.eqc Py.dquote c) eqn:He; [|done].
    apply eqc_true in He. by subst c. }
  assert (Py.startswith (String c s') "'" = false) as ->.
  { cbn [Py.startswith]. destruct (Py.eqc "'" c) eqn:He; [|done].
    apply eqc_true in He. by subst c. }
  assert (forall w, Py.contains "(" w = false -> Py.eqs (String c s') w = false)
    as Hw.
  { intros w Hw. unfold Py.eqs.
    destruct (String.eqb_spec (String c s') w) as [<-|]; [|done]. congruence. }
  rewrite !Hw by done. done.
Qed.

Lemma literal_false e :
  literal e = false ->
  ((Py.startswith e (String Py.dquote "") && Py.endswith_char e Py.dquote)
   || (Py.startswith e "'" && Py.endswith_char e "'")) = false
  /\ Py.eqs e "true" = false /\ Py.eqs e "false" = false
  /\ Py.eqs e "null" = false
  /\ Re.matches Re.int_literal e = false
  /\ Re.matches Re.float_literal e = false.
Proof.
  unfold literal. intros H.
  repeat (apply orb_false_elim in H as [H ?]). rewrite H. auto 10.
Qed.

(** The call case of [eval_expression]. *)
Lemma eval_expression_call host fuel expr local_env st :
  literal (Py.strip expr) = false ->
  local_env !! Py.strip expr = None ->
  globals st !! Py.strip expr = None ->
  Py.contains "(" (Py.strip expr) = true ->
  Py.endswith_char (Py.strip expr) ")" = true ->
  eval_expression host (S fuel) expr local_env st
  = eval_function_call host (eval_expression host fuel) (execute_block host fuel)
      (Py.strip expr) local_env st.
Proof.
  intros Hlit Hloc Hglob Hopen Hend.
  apply literal_false in Hlit as (Hs & Ht & Hf & Hn & Hi & Hfl).
  cbn [eval_expression]. unfold eval_expression_body.
  rewrite Hs, Ht, Hf, Hn, Hi, Hfl. unfold bind at 1, get.
  rewrite Hloc, Hglob, Hopen, Hend. reflexivity.
Qed.




(** The loop of [execute_block] behind the first statements of a block
    goes on from the scope and the result they left, unless one of them
    failed or ended the block. *)
Lemma execute_block_loop_app host exec pre : forall post local_env result st,
  execute_block_loop host exec (pre ++ post) local_env result st
  = match run_statements host exec pre local_env result st with
    | (st1, Ok (Running env1 r1)) => execute_block_loop host exec post env1 r1 st1
    | (st1, Ok (Returned v)) => (st1, Ok v)
    | (st1, Raise e) => (st1, Raise e)
    end.
Proof.
  induction pre as [|s pre IH]; intros post local_env result st; [done|].
  cbn [app execute_block_loop run_statements]. unfold bind.
  destruct (exec s local_env st) as [st1 [[r env1]|e]]; [|done].
  destruct (dict_item host r "__return__") as [flag|]; [|apply IH].
  destruct (truthy host flag); [|apply IH].
  by destruct (dict_item host r "value").
Qed.

Lemma execute_block_loop_finish host exec statements local_env result st :
  execute_block_loop host exec statements local_env result st
  = finish_block (run_statements host exec statements local_env result st).
Proof.
  rewrite <- (app_nil_r statements) at 1. rewrite execute_block_loop_app.
  unfold finish_block.
  by destruct (run_statements host exec statements local_env result st)
    as [st1 [[env1 r1|v]|e]].
Qed.




(** ** Method calls *)

Lemma bind_params_other p : forall ps args (env : Env),
  p ∉ ps -> bind_params ps args env !! p = env !! p.
Proof.
  induction ps as [|q ps IH]; intros args env Hp; simpl; [done|].
  apply not_elem_of_cons in Hp as [Hne Hp].
  destruct args as [|a args]; rewrite IH by done; by rewrite lookup_insert_ne.
Qed.

Lemma bind_params_exhausted p : forall ps (env : Env),
  p ∈ ps -> bind_params ps [] env !! p = Some VNone.
Proof.
  induction ps as [|q ps IH]; intros env Hp; simpl.
  - by apply elem_of_nil in Hp.
  - destruct (decide (p ∈ ps)) as [Hin|Hnin]; [by apply IH|].
    apply elem_of_cons in Hp as [->|Hp]; [|done].
    rewrite bind_params_other by done. by rewrite lookup_insert_eq.
Qed.

Lemma bind_params_missing : forall ps args (env : Env) i p,
  (length args <= i)%nat -> ps !! i = Some p ->
  bind_params ps args env !! p = Some VNone.
Proof.
  induction ps as [|q ps IH]; intros args env i p Hlen Hp; [done|].
  destruct args as [|a args]; simpl.
  - apply (bind_params_exhausted p (q :: ps)). by eapply list_elem_of_lookup_2.
  - destruct i as [|i]; simpl in *; [lia|].
    apply (IH args _ i); [lia|done].
Qed.

Lemma bind_params_supplied : forall ps args (env : Env) i p a,
  ps !! i = Some p -> args !! i = Some a -> p ∉ drop (S i) ps ->
  bind_params ps args env !! p = Some a.
Proof.
  induction ps as [|q ps IH]; intros args env i p a Hp Ha Hlater; [done|].
  destruct args as [|b args]; [done|].
  destruct i as [|i]; simpl in *.
  - injection Hp as ->. injection Ha as ->.
    rewrite bind_params_other by done. by rewrite lookup_insert_eq.
  - by apply (IH _ _ i).
Qed.

(** A name that the scope binds evaluates to its binding. *)
Lemma eval_expression_local host fuel expr local_env st v :
  literal (Py.strip expr) = false ->
  local_env !! Py.strip expr = Some v ->
  eval_expression host (S fuel) expr local_env st = (st, Ok v).
Proof.
  intros Hlit Hv. apply literal_false in Hlit as (Hs & Ht & Hf & Hn & Hi & Hfl).
  cbn [eval_expression]. unfold eval_expression_body.
  rewrite Hs, Ht, Hf, Hn, Hi, Hfl. unfold bind, get. by rewrite Hv.
Qed.

(** C10.  [call_method] has no arity check and binds every parameter
    without an argument to [None]: in the scope of the call the supplied
    arguments are bound to their parameters, the missing parameters are
    [None] and read as [None], and nothing else is bound but [self].  When
    the interpreter makes the call (as for [o.m(args)]) the body then
    executes in that scope, statement by statement: an empty body yields
    [None], a failure of the first statement is the failure of the call,
    and behind a first statement that ends normally the call goes on with
    the statements that follow, in the scope that statement left, and
    yields what they yield.  But the call that the constructor makes
    for [init] passes [None] for the interpreter: there the parameters are
    bound in the same way and the call then fails with [AttributeError]
    before a statement of the body runs, so for this method call the body
    does not execute.  On every host the program below, whose [init] takes
    one parameter and is called with none, raises it and leaves [hit]
    unbound. *)
Theorem C10_missing_arguments_are_None_but_init_fails :
  forall (host : Host) (fuel : nat),
    (forall (l c : nat) (d : Env) (k : KSPLClass) (method_name : string)
            (method : Method) (args : list Value) (st : Interpreter),
        objects st !! l = Some d ->
        d !! "_klass" = Some (VKlass c) ->
        klasses st !! c = Some k ->
        methods k !! method_name = Some method ->
        (length args < length (params method))%nat ->
        let local_env := bind_params (params method) args {[ "self" := VObj l ]} in
        let call :=
          call_method (execute_block host (S fuel)) l method_name TheInterpreter
            args st in
        (forall (i : nat) (param : string),
            (length args <= i)%nat -> params method !! i = Some param ->
            local_env !! param = Some VNone)
        /\ (forall (i : nat) (param : string) (a : Value),
               params method !! i = Some param -> args !! i = Some a ->
               param ∉ drop (S i) (params method) ->
               local_env !! param = Some a)
        /\ (forall x : string,
               x ∉ params method ->
               local_env !! x = if decide (x = "self") then Some (VObj l) else None)
        /\ (forall (i : nat) (param : string),
               (length args <= i)%nat -> params method !! i = Some param ->
               literal param = false -> Py.strip param = param ->
               eval_expression host (S fuel) param local_env st = (st, Ok VNone))
        /\ (body method = [] -> call = (st, Ok VNone))
        /\ (forall (stmt : string) (rest : list string),
               body method = stmt :: rest ->
               (forall (st1 : Interpreter) (err : Exn),
                   execute_statement host fuel stmt local_env st = (st1, Raise err) ->
                   call = (st1, Raise err))
               /\ (forall (st1 : Interpreter) (v : Value) (env1 : Env),
                      execute_statement host fuel stmt local_env st
                      = (st1, Ok (v, env1)) ->
                      dict_item host v "__return__" = None ->
                      call
                      = finish_block
                          (run_statements host (execute_statement host fuel)
                             rest env1 v st1)))
        /\ (forall block_rec : list string -> Env -> M Value,
               call_method block_rec l method_name NoInterpreter args st
               = (st, Raise (AttributeError "NoneType" "execute_block"))))
    /\ (let '(st, o) :=
          run host (S (S fuel)) (program (init_class ++ ["c = K()"]))
            new_interpreter in
        o = Raise (AttributeError "NoneType" "execute_block")
        /\ globals st !! "hit" = None
        /\ globals st !! "c" = None).
Proof.
  intros host fuel. split; [|vm_compute; repeat split].
  intros l c d k method_name method args st Hobj Hklass Hk Hm Hlen local_env call.
  assert (Hcall : call = execute_block_loop host (execute_statement host fuel)
                           (body method) local_env VNone st).
  { unfold call, call_method, bind, klass_of. by rewrite Hobj, Hklass, Hk, Hm. }
  assert (Hmissing : forall i param,
             (length args <= i)%nat -> params method !! i = Some param ->
             local_env !! param = Some VNone)
    by (intros i param Hi Hp; by apply (bind_params_missing _ _ _ i)).
  split; [done|]. split; [|split; [|split; [|split; [|split]]]].
  - intros i param a Hp Ha Hlater. by apply (bind_params_supplied _ _ _ i).
  - intros x Hx. unfold local_env. rewrite bind_params_other by done.
    destruct (decide (x = "self")) as [->|Hself];
      [apply lookup_singleton_eq|by apply lookup_singleton_ne].
  - intros i param Hi Hp Hlit Hstrip. apply eval_expression_local.
    + by rewrite Hstrip.
    + rewrite Hstrip. by apply (Hmissing i).
  - intros Hbody. by rewrite Hcall, Hbody.
  - intros stmt rest Hbody. rewrite Hcall, Hbody. cbn [execute_block_loop].
    unfold bind. split.
    + intros st1 err Hstmt. by rewrite Hstmt.
    + intros st1 v env1 Hstmt Hdict. rewrite Hstmt, Hdict.
      apply execute_block_loop_finish.
  - intros block_rec. unfold call_method, bind, klass_of.
    by rewrite Hobj, Hklass, Hk, Hm.
Qed.

(** C10 on [p.scale(3)]: the method has the parameters [a] and [b], the
    call gives one argument, and the body binds the global [seen] to [b]
    and returns [a]. *)
Lemma C10_witness :
  bind_params ["a"; "b"] [VInt 3] {[ "self" := VObj 0 ]} !! "b" = Some VNone
  /\ bind_params ["a"; "b"] [VInt 3] {[ "self" := VObj 0 ]} !! "a" = Some (VInt 3)
  /\ globals probe_state !! "seen" = None
  /\ (let '(st, o) :=
        call_method (execute_block bare_host 2) 0 "scale" TheInterpreter [VInt 3]
          probe_state in
      o = Ok (VInt 3) /\ globals st !! "seen" = Some VNone)
  /\ (let '(st, o) := eval_expression bare_host 3 "p.scale(3)" ∅ probe_state in
      o = Ok (VInt 3) /\ globals st !! "seen" = Some VNone).
Proof.
  pose (d := ({[ "_klass" := VKlass 0 ]} : Env)).
  pose (scale := {| params := ["a"; "b"]; body := ["seen = b"; "return a"] |}).
  pose (k := {| name := "P"; methods := {[ "scale" := scale ]}; fields := ∅ |}).
  assert (Hobj : objects probe_state !! 0%nat = Some d) by reflexivity.
  assert (Hklass : d !! "_klass" = Some (VKlass 0)) by reflexivity.
  assert (Hk : klasses probe_state !! 0%nat = Some k) by reflexivity.
  assert (Hm : methods k !! "scale" = Some scale) by reflexivity.
  destruct (proj1 (C10_missing_arguments_are_None_but_init_fails bare_host 1)
              0%nat 0%nat d k "scale" scale [VInt 3] probe_state
              Hobj Hklass Hk Hm (le_n 2))
    as (Hmissing & Hsupplied & _ & _ & _ & Hbody & _).
  split; [exact (Hmissing 1%nat "b" (le_n 1) eq_refl)|].
  split.
  { apply (Hsupplied 0%nat "a" (VInt 3) eq_refl eq_refl). simpl.
    rewrite elem_of_cons, elem_of_nil. intros [Hin|[]]. discriminate Hin. }
  split; [reflexivity|]. split.
  - destruct (Hbody "seen = b" ["return a"] eq_refl) as [_ Hnext].
    rewrite (Hnext (set_globals (fun g => <["seen" := VNone]> g) probe_state) VNone
               (bind_params ["a"; "b"] [VInt 3] {[ "self" := VObj 0 ]})
               eq_refl eq_refl).
    vm_compute. split; reflexivity.
  - vm_compute. split; reflexivity.
Defined.

(* ================================================================== *)
(** * Further properties of the interpreter *)
(* ================================================================== *)

(** ** Declarations and scopes *)

Lemma let_head_not_skipped s :
  Py.startswith s "let " = true ->
  Py.is_empty s || Py.startswith s "//" = false.
Proof.
  intros H. destruct (startswith_cons _ _ _ H) as (s' & -> & _). reflexivity.
Qed.

Lemma let_statement host eval_rec stmt local_env st name expr st' v :
  Py.startswith (Py.strip stmt) "let " = true ->
  Re.match2 Re.let_decl (Py.strip stmt) = Some (name, expr) ->
  eval_rec expr local_env st = (st', Ok v) ->
  execute_statement_body host eval_rec stmt local_env st
  = (st', Ok (v, <[name := v]> local_env)).
Proof.
  intros Hlet Hre Heval. unfold execute_statement_body.
  rewrite (let_head_not_skipped _ Hlet), Hlet, Hre.
  unfold bind. rewrite Heval. reflexivity.
Qed.

(** X1.  A [let] declaration binds its name in the local environment of
    the call that executes it and writes no other scope: the interpreter
    state behind the statement is the state behind the evaluation of its
    expression.  At the top level of a program the local environment is a
    fresh dict per statement, so a [let] there leaves nothing for the
    statements that follow: the rest of the program runs from the state
    the expression left. *)
Theorem let_binds_in_the_local_scope_only :
  forall (host : Host) (fuel : nat) (stmt name expr : string),
    Py.startswith (Py.strip stmt) "let " = true ->
    Re.match2 Re.let_decl (Py.strip stmt) = Some (name, expr) ->
    (forall (local_env : Env) (st st' : Interpreter) (v : Value),
        eval_expression host fuel expr local_env st = (st', Ok v) ->
        execute_statement host fuel stmt local_env st
        = (st', Ok (v, <[name := v]> local_env)))
    /\ (forall (frame : nat) (rest : list ParsedStmt) (st st' : Interpreter)
               (v : Value),
           eval_expression host fuel expr ∅ st = (st', Ok v) ->
           execute_program host fuel frame (PStmt stmt :: rest) st
           = execute_program host fuel frame rest st').
Proof.
  intros host fuel stmt name expr Hlet Hre. split.
  - intros local_env st st' v Heval. by apply (let_statement _ _ _ _ _ name expr).
  - intros frame rest st st' v Heval. cbn [execute_program]. unfold bind at 1.
    unfold execute_statement.
    by rewrite (let_statement _ _ _ _ _ _ _ _ _ Hlet Hre Heval).
Qed.

(** X1 on [let x = 1] followed by [y = x]: the second statement finds no
    [x]. *)
Lemma let_binds_in_the_local_scope_only_witness :
  execute_statement bare_host 1 "let x = 1" ∅ new_interpreter
  = (new_interpreter, Ok (VInt 1, {[ "x" := VInt 1 ]}))
  /\ execute_program bare_host 1 0 [PStmt "let x = 1"; PStmt "y = x"] new_interpreter
     = (new_interpreter, Raise (KSPLRuntimeError "Could not evaluate expression: x")).
Proof.
  destruct (let_binds_in_the_local_scope_only bare_host 1 "let x = 1" "x" "1"
              eq_refl eq_refl) as [Hlocal Htop].
  split.
  - exact (Hlocal ∅ new_interpreter new_interpreter (VInt 1) eq_refl).
  - rewrite (Htop 0%nat [PStmt "y = x"] new_interpreter new_interpreter (VInt 1) eq_refl).
    reflexivity.
Defined.

(** ** Instances *)

Lemma eqc_sym a b : Py.eqc a b = Py.eqc b a.
Proof. unfold Py.eqc. apply Ascii.eqb_sym. Qed.

Lemma split_without_separator c s :
  Py.contains c s = false -> Py.split c s = [s].
Proof.
  induction s as [|d s IH]; simpl; [done|].
  intros H. apply orb_false_elim in H as [Hd Hs].
  rewrite eqc_sym, Hd, IH by done. reflexivity.
Qed.

Lemma assignment_not_skipped s p :
  Re.match2 Re.assignment s = Some p ->
  Py.is_empty s || Py.startswith s "//" = false.
Proof.
  intros H. destruct (match2_rmatch _ _ _ H) as (caps & Hcaps).
  destruct (rmatch_assignment_head _ _ Hcaps) as (c & s' & -> & Hc).
  by apply dotted_head_not_comment.
Qed.

(** X2.  An assignment [o.p = expr] to an attribute of an instance is read
    back.  When [o] names an instance (in the local environment, or else in
    the global namespace) and [p] is none of the names that [object] serves
    itself, the statement stores the value of [expr] under [p] in the
    [__dict__] of that instance and changes nothing else; reading [p] from
    the instance then gives that value, whatever the class declares, and
    the local and global scopes are as the evaluation of [expr] left
    them. *)
Theorem attribute_assignment_is_read_back :
  forall (host : Host) (fuel : nat) (stmt target expr obj_name prop : string)
         (local_env : Env) (st st' : Interpreter) (v : Value) (l : nat) (d : Env),
    Py.startswith (Py.strip stmt) "let " = false ->
    Re.match2 Re.assignment (Py.strip stmt) = Some (target, expr) ->
    Py.split "." target = [obj_name; prop] ->
    data_descriptor prop = false ->
    eval_expression host fuel expr local_env st = (st', Ok v) ->
    (local_env ∪ globals st') !! obj_name = Some (VObj l) ->
    objects st' !! l = Some d ->
    let st'' := set_objects (fun os => <[l := <[prop := v]> d]> os) st' in
    execute_statement host fuel stmt local_env st = (st'', Ok (v, local_env))
    /\ getattr host (VObj l) prop st'' = Some v
    /\ resolve_path host (VObj l) [prop] st'' = (st'', Ok v)
    /\ globals st'' = globals st'.
Proof.
  intros host fuel stmt target expr obj_name prop local_env st st' v l d
    Hlet Hassign Hsplit Hdesc Heval Hobj Hd st''.
  assert (Hdot : Py.contains "." target = true).
  { destruct (Py.contains "." target) eqn:H; [done|].
    rewrite (split_without_separator _ _ H) in Hsplit. done. }
  assert (Hget : getattr host (VObj l) prop st'' = Some v).
  { unfold getattr, st'', set_objects. cbn [objects].
    rewrite list_lookup_insert_eq by (by eapply lookup_lt_Some).
    by rewrite Hdesc, lookup_insert_eq. }
  split; [|split; [|split]].
  - unfold execute_statement, execute_statement_body.
    rewrite (assignment_not_skipped _ _ Hassign), Hlet, Hassign.
    unfold bind at 1. rewrite Heval, Hdot, Hsplit. unfold bind at 1, get.
    assert (Hset : assign_property host (VObj l) [prop] v st' = (st'', Ok tt)).
    { unfold assign_property. cbn [removelast List.last resolve_path].
      unfold bind, ret, setattr. rewrite Hdesc. unfold modify, st'', set_objects.
      by rewrite Hd. }
    apply lookup_union_Some_raw in Hobj as [Hloc|[Hloc Hglob]].
    + rewrite Hloc. unfold bind. by rewrite Hset.
    + rewrite Hloc, Hglob. unfold bind. by rewrite Hset.
  - exact Hget.
  - cbn [resolve_path]. unfold bind, resolve_property. by rewrite Hget.
  - reflexivity.
Qed.

(** X2 on [self.n = 5] in a scope that binds [self] to the instance of
    class [P] at address 0. *)
Lemma attribute_assignment_is_read_back_witness :
  let st'' := set_objects (fun os => <[0%nat := {[ "n" := VInt 5; "_klass" := VKlass 0 ]}]> os)
                scale_state in
  execute_statement bare_host 1 "self.n = 5" {[ "self" := VObj 0 ]} scale_state
  = (st'', Ok (VInt 5, {[ "self" := VObj 0 ]}))
  /\ getattr bare_host (VObj 0) "n" st'' = Some (VInt 5).
Proof.
  pose (d := ({[ "_klass" := VKlass 0 ]} : Env)).
  pose (env := ({[ "self" := VObj 0 ]} : Env)).
  assert (Hobj : (env ∪ globals scale_state) !! "self" = Some (VObj 0)) by reflexivity.
  assert (Hd : objects scale_state !! 0%nat = Some d) by reflexivity.
  destruct (attribute_assignment_is_read_back bare_host 1 "self.n = 5" "self.n" "5"
              "self" "n" env scale_state scale_state (VInt 5) 0 d
              eq_refl eq_refl eq_refl eq_refl eq_refl Hobj Hd)
    as (Hexec & Hget & _ & _).
  split; [exact Hexec|exact Hget].
Defined.

Lemma new_object_without_init host block_rec c klass args st :
  klasses st !! c = Some klass ->
  methods klass !! "init" = None ->
  new_object host block_rec c args st
  = (set_objects (fun os =>
       os ++ [match args with
              | a :: _ => <["name" := a]> (fields klass ∪ {[ "_klass" := VKlass c ]})
              | [] => fields klass ∪ {[ "_klass" := VKlass c ]}
              end]) st,
     Ok (VObj (length (objects st)))).
Proof.
  intros Hk Hinit. unfold new_object, bind, get, modify. rewrite Hk, Hinit.
  destruct args as [|a rest]; [reflexivity|].
  unfold setattr. change (data_descriptor "name") with false. cbv beta iota.
  unfold modify, ret, set_objects. cbn [objects classes globals klasses frames].
  rewrite list_lookup_middle by done.
  rewrite insert_app_r_alt by done. rewrite Nat.sub_diag. reflexivity.
Qed.

(** X3.  An instance of a class without [init].  The constructor never
    fails and never runs script code: it allocates one new instance and
    leaves the older instances, the classes and the global namespace as
    they were.  The new instance reads every field the class declares as
    the default that was computed when the class was loaded, except that
    a first constructor argument, if there is one, is stored under the
    attribute [name] (also over a declared field [name]); the arguments
    after the first are ignored. *)
Theorem instance_without_init_copies_the_fields :
  forall (host : Host) (block_rec : list string -> Env -> M Value) (c : nat)
         (klass : KSPLClass) (args : list Value) (st : Interpreter),
    klasses st !! c = Some klass ->
    methods klass !! "init" = None ->
    let l := length (objects st) in
    let st' := fst (new_object host block_rec c args st) in
    snd (new_object host block_rec c args st) = Ok (VObj l)
    /\ length (objects st') = S l
    /\ (forall l' : nat, (l' < l)%nat -> objects st' !! l' = objects st !! l')
    /\ globals st' = globals st /\ classes st' = classes st
    /\ klasses st' = klasses st
    /\ (forall (f : string) (v : Value),
           fields klass !! f = Some v -> data_descriptor f = false ->
           f <> "name" \/ args = [] ->
           getattr host (VObj l) f st' = Some v)
    /\ (forall (a : Value) (rest : list Value),
           args = a :: rest ->
           getattr host (VObj l) "name" st' = Some a
           /\ new_object host block_rec c args st
              = new_object host block_rec c [a] st).
Proof.
  intros host block_rec c klass args st Hk Hinit l st'.
  subst l st'. rewrite (new_object_without_init _ _ _ _ _ _ Hk Hinit).
  cbn [fst snd set_objects objects globals classes klasses].
  split; [done|]. split; [rewrite length_app; cbn [length]; lia|].
  split; [intros l' Hl'; by rewrite lookup_app_l|].
  do 3 (split; [done|]). split.
  - intros f v Hf Hdesc Hname. unfold getattr. cbn [objects set_objects].
    rewrite list_lookup_middle by done. rewrite Hdesc.
    assert (Hdefault : (fields klass ∪ {[ "_klass" := VKlass c ]} : Env) !! f = Some v)
      by (by apply lookup_union_Some_l).
    destruct args as [|a rest]; [by rewrite Hdefault|].
    destruct Hname as [Hname|]; [|done].
    by rewrite lookup_insert_ne, Hdefault.
  - intros a rest ->. split.
    + unfold getattr. cbn [objects set_objects]. rewrite list_lookup_middle by done.
      change (data_descriptor "name") with false. cbv beta iota.
      by rewrite lookup_insert_eq.
    + by rewrite (new_object_without_init _ _ _ _ [a] _ Hk Hinit).
Qed.

(** X3 on an instance of a class with the field [n = 0], built with the
    arguments 7 and 8. *)
Lemma instance_without_init_copies_the_fields_witness :
  let st := set_klasses (fun _ => [{| name := "Q"; methods := ∅;
                                      fields := {[ "n" := VInt 0 ]} |}])
              new_interpreter in
  let r := new_object bare_host (execute_block bare_host 1) 0 [VInt 7; VInt 8] st in
  snd r = Ok (VObj 0)
  /\ getattr bare_host (VObj 0) "n" (fst r) = Some (VInt 0)
  /\ getattr bare_host (VObj 0) "name" (fst r) = Some (VInt 7).
Proof.
  pose (k := {| name := "Q"; methods := ∅; fields := {[ "n" := VInt 0 ]} |}).
  pose (st := set_klasses (fun _ => [k]) new_interpreter).
  assert (Hk : klasses st !! 0%nat = Some k) by reflexivity.
  assert (Hinit : methods k !! "init" = None) by reflexivity.
  destruct (instance_without_init_copies_the_fields bare_host
              (execute_block bare_host 1) 0 k [VInt 7; VInt 8] st Hk Hinit)
    as (Hobj & _ & _ & _ & _ & _ & Hfield & Hname).
  split; [exact Hobj|]. split.
  - apply (Hfield "n" (VInt 0)); [reflexivity|reflexivity|].
    left. intros H. discriminate H.
  - exact (proj1 (Hname (VInt 7) [VInt 8] eq_refl)).
Defined.

(** ** Global functions *)

Lemma zip_env_other p : forall ps args (env : Env),
  p ∉ take (length args) ps -> zip_env ps args env !! p = env !! p.
Proof.
  induction ps as [|q ps IH]; intros args env Hp; [by destruct args|].
  destruct args as [|a args]; [done|]. simpl in *.
  apply not_elem_of_cons in Hp as [Hne Hp].
  rewrite IH by done. by rewrite lookup_insert_ne.
Qed.

Lemma zip_env_lookup : forall ps args (env : Env) i p a,
  NoDup ps -> ps !! i = Some p -> args !! i = Some a ->
  zip_env ps args env !! p = Some a.
Proof.
  induction ps as [|q ps IH]; intros args env i p a Hnd Hp Ha; [done|].
  destruct args as [|b args]; [done|]. apply NoDup_cons in Hnd as [Hq Hnd].
  destruct i as [|i]; simpl in *.
  - injection Hp as ->. injection Ha as ->.
    rewrite zip_env_other; [by rewrite lookup_insert_eq|].
    intros Hin. apply Hq. apply elem_of_take in Hin as (j & Hj & _).
    by eapply list_elem_of_lookup_2.
  - by eapply IH.
Qed.

(** X4.  A call of a global function raises no arity error and binds
    exactly the parameters that have an argument: the body runs in the
    scope [dict(zip(params, args))].  A parameter beyond the arguments is
    not bound at all (a method binds it to [None]), so a read of it falls
    through to the global namespace; surplus arguments are dropped; with
    distinct parameter names, the i-th parameter is bound to the i-th
    argument. *)
Theorem function_call_binds_the_paired_parameters :
  forall (host : Host) (block_rec : list string -> Env -> M Value) (frame : nat)
         (ps b : list string) (args : list Value) (st : Interpreter),
    frames st !! frame = Some (ps, b) ->
    call_value host block_rec (VFunction frame) args st
    = block_rec b (zip_env ps args ∅) st
    /\ (forall p : string,
           p ∉ take (length args) ps -> zip_env ps args ∅ !! p = None)
    /\ (NoDup ps ->
        forall (i : nat) (p : string) (a : Value),
          ps !! i = Some p -> args !! i = Some a ->
          zip_env ps args ∅ !! p = Some a).
Proof.
  intros host block_rec frame ps b args st Hframe. split; [|split].
  - unfold call_value, bind, get. by rewrite Hframe.
  - intros p Hp. by rewrite zip_env_other.
  - intros Hnd i p a Hp Ha. by eapply zip_env_lookup.
Qed.

(** X4 on a function [f(a, b)] with the body [return b], called with one
    argument: [b] is unbound in the body, and the fallback evaluator
    rejects it. *)
Lemma function_call_binds_the_paired_parameters_witness :
  call_value bare_host (execute_block bare_host 2) (VFunction 0) [VInt 3]
    (set_frames (fun _ => [(["a"; "b"], ["return b"])]) new_interpreter)
  = (set_frames (fun _ => [(["a"; "b"], ["return b"])]) new_interpreter,
     Raise (KSPLRuntimeError "Could not evaluate expression: b")).
Proof.
  pose (st := set_frames (fun _ => [(["a"; "b"], ["return b"])]) new_interpreter).
  assert (Hframe : frames st !! 0%nat = Some (["a"; "b"], ["return b"]))
    by reflexivity.
  refine (eq_trans (proj1 (function_call_binds_the_paired_parameters bare_host
                             (execute_block bare_host 2) 0 ["a"; "b"] ["return b"]
                             [VInt 3] st Hframe)) _).
  reflexivity.
Defined.

Lemma last_function_cons s statements :
  last_function (s :: statements)
  = match last_function statements with
    | Some pb => Some pb
    | None => match s with PFunction _ ps b => Some (ps, b) | _ => None end
    end.
Proof.
  unfold last_function. destruct s; simpl; try by destruct (last _).
  rewrite last_cons. by destruct (last _).
Qed.

(** The second loop of [run] over declarations: the state it leaves. *)
Lemma execute_program_declarations host fuel frame : forall decls st,
  forallb (fun s => negb (is_stmt s)) decls = true ->
  exists st',
    (forall rest, execute_program host fuel frame (decls ++ rest) st
                  = execute_program host fuel frame rest st')
    /\ frames st' = match last_function decls with
                    | Some pb => <[frame := pb]> (frames st)
                    | None => frames st
                    end
    /\ (forall f, f ∈ function_names decls ->
                  globals st' !! f = Some (VFunction frame))
    /\ (forall f, f ∉ function_names decls -> globals st' !! f = globals st !! f)
    /\ classes st' = classes st /\ klasses st' = klasses st
    /\ objects st' = objects st.
Proof.
  induction decls as [|s decls IH]; intros st Hdecls.
  - exists st. repeat split; try done. intros f Hf. by apply elem_of_nil in Hf.
  - simpl in Hdecls. apply andb_prop in Hdecls as [Hs Hdecls].
    destruct s as [cn cb|f ps b|line]; [| |done].
    + destruct (IH st Hdecls) as (st' & Hrun & Hfr & Hin & Hout & Hrest).
      exists st'. rewrite last_function_cons. split; [done|].
      split; [by destruct (last_function decls)|]. done.
    + pose (st1 := set_globals (fun g => <[f := VFunction frame]> g)
                     (set_frames (fun fs => <[frame := (ps, b)]> fs) st)).
      destruct (IH st1 Hdecls) as (st' & Hrun & Hfr & Hin & Hout & Hc & Hk & Ho).
      exists st'. rewrite last_function_cons. split; [done|]. split; [|split; [|split]].
      * rewrite Hfr. cbn [st1 set_globals set_frames frames].
        destruct (last_function decls); [|done].
        by rewrite list_insert_insert_eq.
      * intros g Hg. cbn [function_names omap list_omap] in Hg.
        destruct (decide (g ∈ function_names decls)) as [Hd|Hd]; [by apply Hin|].
        apply elem_of_cons in Hg as [->|Hg]; [|done].
        rewrite (Hout _ Hd). cbn [st1 set_globals globals].
        by rewrite lookup_insert_eq.
      * intros g Hg. cbn [function_names omap list_omap] in Hg.
        apply not_elem_of_cons in Hg as [Hne Hg].
        rewrite (Hout _ Hg). cbn [st1 set_globals set_frames globals].
        by rewrite lookup_insert_ne.
      * done.
Qed.

(** X5.  The global functions of one run share one body.  [run] binds
    each function name to a lambda that reads the variables [params] and
    [body] of [run] when it is called, not when it is made, and the loop
    assigns these variables anew for each function.  After a sequence of
    function (and class) declarations every function name declared in it
    is bound to a function that runs the body of the last function
    declared, with the parameters of the last function; the rest of the
    program runs from that state. *)
Theorem functions_of_a_run_share_the_last_body :
  forall (host : Host) (fuel frame : nat) (decls : list ParsedStmt)
         (st : Interpreter) (ps b : list string),
    forallb (fun s => negb (is_stmt s)) decls = true ->
    (frame < length (frames st))%nat ->
    last_function decls = Some (ps, b) ->
    exists st' : Interpreter,
      (forall rest : list ParsedStmt,
          execute_program host fuel frame (decls ++ rest) st
          = execute_program host fuel frame rest st')
      /\ forall f : string,
           f ∈ function_names decls ->
           exists fn : Value,
             globals st' !! f = Some fn
             /\ forall (block_rec : list string -> Env -> M Value)
                       (args : list Value),
                  call_value host block_rec fn args st'
                  = block_rec b (zip_env ps args ∅) st'.
Proof.
  intros host fuel frame decls st ps b Hdecls Hframe Hlast.
  destruct (execute_program_declarations host fuel frame decls st Hdecls)
    as (st' & Hrun & Hfr & Hin & _).
  exists st'. split; [done|]. intros f Hf. exists (VFunction frame).
  split; [by apply Hin|]. intros block_rec args.
  unfold call_value, bind, get. rewrite Hfr, Hlast.
  by rewrite list_lookup_insert_eq.
Qed.

(** X5 on the declarations of [a], which returns 1, and [b], which
    returns 2: the call [a()] in a program that declares both yields 2. *)
Lemma functions_of_a_run_share_the_last_body_witness :
  (exists st' : Interpreter,
      (forall rest : list ParsedStmt,
          execute_program bare_host 2 0
            ([PFunction "a" [] ["return 1"]; PFunction "b" [] ["return 2"]] ++ rest)
            (set_frames (fun fs => fs ++ [([], [])]) new_interpreter)
          = execute_program bare_host 2 0 rest st')
      /\ forall f : string,
           f ∈ function_names
                 [PFunction "a" [] ["return 1"]; PFunction "b" [] ["return 2"]] ->
           exists fn : Value,
             globals st' !! f = Some fn
             /\ forall (block_rec : list string -> Env -> M Value)
                       (args : list Value),
                  call_value bare_host block_rec fn args st'
                  = block_rec ["return 2"] (zip_env [] args ∅) st')
  /\ (let '(st, o) :=
        run bare_host 3
          (program ["fn a() {"; "return 1"; "}"; "fn b() {"; "return 2"; "}";
                    "r = a()"])
          new_interpreter in
      o = Ok tt /\ globals st !! "r" = Some (VInt 2)).
Proof.
  split.
  - apply (functions_of_a_run_share_the_last_body bare_host 2 0
             [PFunction "a" [] ["return 1"]; PFunction "b" [] ["return 2"]]
             (set_frames (fun fs => fs ++ [([], [])]) new_interpreter)
             [] ["return 2"]); [reflexivity|cbn; lia|reflexivity].
  - vm_compute. split; reflexivity.
Defined.

(** ** Blocks *)

(** X6.  A block whose last line is blank or a comment.  The bodies
    that [parse_function] and [load_class] collect keep their blank and
    comment lines, [execute_statement] returns [None] for such a line, and
    [execute_block] yields the result of the last statement it executed.
    So a block followed by a blank or comment line ends in the same state
    as the block alone and fails as it fails; it yields [None] where the
    block alone ran through all its statements and yielded the value of
    the last one, and the same value where a result with a ['__return__']
    entry ended the block before. *)
Theorem block_ending_in_a_comment_yields_None :
  forall (host : Host) (fuel : nat) (pre : list string) (c : string)
         (local_env : Env) (st : Interpreter),
    skipped c = true ->
    execute_block host (S fuel) pre local_env st
    = finish_block
        (run_statements host (execute_statement host fuel) pre local_env VNone st)
    /\ execute_block host (S fuel) (pre ++ [c]) local_env st
       = match run_statements host (execute_statement host fuel) pre local_env
                 VNone st with
         | (st', Ok (Running _ _)) => (st', Ok VNone)
         | (st', Ok (Returned v)) => (st', Ok v)
         | (st', Raise e) => (st', Raise e)
         end.
Proof.
  intros host fuel pre c local_env st Hc. cbn [execute_block].
  unfold execute_block_body. fold (execute_statement host fuel). split.
  - apply execute_block_loop_finish.
  - rewrite execute_block_loop_app.
    destruct (run_statements host (execute_statement host fuel) pre local_env
                VNone st) as [st1 [[env1 r1|v]|e]]; try done.
    cbn [execute_block_loop]. unfold bind, execute_statement.
    unfold execute_statement_body at 1. unfold skipped in Hc. rewrite Hc.
    reflexivity.
Qed.

(** X6 on the body [return 1] followed by a comment, and on a program
    whose function ends in a comment. *)
Lemma block_ending_in_a_comment_yields_None_witness :
  execute_block bare_host 2 ["return 1"] ∅ new_interpreter
  = (new_interpreter, Ok (VInt 1))
  /\ execute_block bare_host 2 (["return 1"] ++ ["// done"]) ∅ new_interpreter
     = (new_interpreter, Ok VNone)
  /\ (let '(st, o) :=
        run bare_host 3
          (program ["fn f() {"; "return 1"; "// done"; "}"; "r = f()"])
          new_interpreter in
      o = Ok tt /\ globals st !! "r" = Some VNone).
Proof.
  destruct (block_ending_in_a_comment_yields_None bare_host 1 ["return 1"]
              "// done" ∅ new_interpreter eq_refl) as [Hblock Hcomment].
  split; [|split].
  - rewrite Hblock. reflexivity.
  - rewrite Hcomment. reflexivity.
  - vm_compute. split; reflexivity.
Defined.

(** ** Programs *)

Lemma parse_loop_statements fuel : forall lines i statements,
  (length lines - i <= fuel)%nat ->
  forallb (fun line => negb (header_line line)) (drop i lines) = true ->
  parse_loop fuel lines i statements
  = Ok (statements
        ++ map PStmt (List.filter (fun line => negb (blank_or_comment line))
                        (drop i lines))).
Proof.
  induction fuel as [|fuel IH]; intros lines i statements Hfuel Hplain.
  - assert (Hi : lines !! i = None) by (apply lookup_ge_None; lia).
    rewrite drop_ge by lia. cbn [parse_loop]. rewrite Hi.
    by rewrite app_nil_r.
  - cbn [parse_loop]. destruct (lines !! i) as [line|] eqn:Hline.
    + rewrite (drop_S _ _ _ Hline) in *. cbn [forallb List.filter] in *.
      apply andb_prop in Hplain as [Hhead Hplain].
      apply negb_true_iff in Hhead. unfold header_line in Hhead.
      apply orb_false_elim in Hhead as [-> ->].
      pose proof (lookup_lt_Some _ _ _ Hline) as Hi.
      fold (blank_or_comment line). destruct (blank_or_comment line); cbn [negb].
      * apply IH; [lia|done].
      * rewrite IH by (lia || done). cbn [map]. by rewrite <- app_assoc.
    + apply lookup_ge_None in Hline. rewrite drop_ge by lia. by rewrite app_nil_r.
Qed.

(** X7.  The interpreter's [parse] on a source without class or function
    headers: it never fails, and its result is one statement for each line
    that is neither blank nor a comment, in the order of the source, each
    line without its surrounding blanks. *)
Theorem parse_keeps_the_statement_lines :
  forall source : string,
    forallb (fun line => negb (header_line line))
      (map Py.strip (Py.split Py.newline source)) = true ->
    parse source
    = Ok (map PStmt
            (List.filter (fun line => negb (blank_or_comment line))
               (map Py.strip (Py.split Py.newline source)))).
Proof.
  intros source Hplain. unfold parse.
  rewrite parse_loop_statements; [done|lia|done].
Qed.

(** X7 on a source with a blank line, a comment and two statements. *)
Lemma parse_keeps_the_statement_lines_witness :
  parse (program ["  x = 1"; ""; "// note"; "print(x)  "])
  = Ok [PStmt "x = 1"; PStmt "print(x)"].
Proof.
  exact (parse_keeps_the_statement_lines
           (program ["  x = 1"; ""; "// note"; "print(x)  "]) eq_refl).
Defined.

Lemma load_classes_filter host fuel frame : forall statements st,
  load_classes host fuel frame statements st
  = load_classes host fuel frame (List.filter is_class statements) st.
Proof.
  induction statements as [|s statements IH]; intros st; [done|].
  destruct s; cbn [List.filter is_class load_classes]; [|apply IH..].
  unfold bind, modify.
  destruct (load_class host fuel class_name class_body _) as [st1 [c|e]]; [|done].
  apply IH.
Qed.

Lemma execute_program_filter host fuel frame : forall statements st,
  execute_program host fuel frame statements st
  = execute_program host fuel frame
      (List.filter (fun s => negb (is_class s)) statements) st.
Proof.
  induction statements as [|s statements IH]; intros st; [done|].
  destruct s; cbn [List.filter is_class negb execute_program]; [apply IH| |].
  - unfold bind, modify. apply IH.
  - unfold bind.
    destruct (execute_statement host fuel line ∅ st) as [st1 [r|e]]; [|done].
    apply IH.
Qed.

(** X8.  Class declarations are hoisted.  [run] loads every class of the
    program before it executes the first statement, and the second pass
    skips the class declarations: two programs with the same classes in the
    same order and the same other statements in the same order run alike,
    wherever the classes stand among the statements.  Functions are not
    hoisted: they are bound by the second pass, in their place. *)
Theorem class_declarations_are_hoisted :
  forall (host : Host) (fuel : nat) (source1 source2 : string)
         (s1 s2 : list ParsedStmt) (st : Interpreter),
    parse source1 = Ok s1 ->
    parse source2 = Ok s2 ->
    List.filter is_class s1 = List.filter is_class s2 ->
    List.filter (fun s => negb (is_class s)) s1
    = List.filter (fun s => negb (is_class s)) s2 ->
    run host fuel source1 st = run host fuel source2 st.
Proof.
  intros host fuel source1 source2 s1 s2 st H1 H2 Hclasses Hothers.
  unfold run, lift. rewrite H1, H2. unfold bind, get, modify.
  rewrite (load_classes_filter _ _ _ s1), (load_classes_filter _ _ _ s2), Hclasses.
  destruct (load_classes _ _ _ _ _) as [st1 [[]|e]]; [|done].
  by rewrite (execute_program_filter _ _ _ s1), (execute_program_filter _ _ _ s2),
    Hothers.
Qed.

(** X8 on a statement that instantiates a class declared after it, and
    on a call of a function declared after it. *)
Lemma class_declarations_are_hoisted_witness :
  run bare_host 2 (program ["p = P()"; "class P {"; "}"]) new_interpreter
  = run bare_host 2 (program ["class P {"; "}"; "p = P()"]) new_interpreter
  /\ globals (fst (run bare_host 2 (program ["p = P()"; "class P {"; "}"])
                     new_interpreter)) !! "p" = Some (VObj 0)
  /\ snd (run bare_host 2 (program ["r = f()"; "fn f() {"; "return 1"; "}"])
            new_interpreter)
     = Raise (CallTargetError "f").
Proof.
  split; [|split].
  - exact (class_declarations_are_hoisted bare_host 2
             (program ["p = P()"; "class P {"; "}"])
             (program ["class P {"; "}"; "p = P()"])
             [PStmt "p = P()"; PClass "P" []] [PClass "P" []; PStmt "p = P()"]
             new_interpreter eq_refl eq_refl eq_refl eq_refl).
  - reflexivity.
  - reflexivity.
Defined.

(** ** Expressions *)

Lemma int_literal_head e :
  Re.matches Re.int_literal e = true ->
  exists c e', e = String c e' /\ (c = "-"%char \/ Py.isdigit c = true).
Proof.
  unfold Re.matches, Re.rmatch, Re.int_literal, Re.seq. simpl.
  destruct e as [|c e']; simpl; [done|].
  destruct (Py.eqc "-" c) eqn:Hc.
  - apply eqc_true in Hc. eauto.
  - destruct (Py.isdigit c) eqn:Hd; [eauto|done].
Qed.

(** An integer text is none of the literals that [eval_expression] reads
    before it. *)
Lemma int_literal_first e :
  Re.matches Re.int_literal e = true ->
  ((Py.startswith e (String Py.dquote "") && Py.endswith_char e Py.dquote)
   || (Py.startswith e "'" && Py.endswith_char e "'")) = false
  /\ Py.eqs e "true" = false /\ Py.eqs e "false" = false
  /\ Py.eqs e "null" = false.
Proof.
  intros He. destruct (int_literal_head e He) as (c & e' & -> & Hc).
  assert (Hhead : forall x : ascii, Py.isdigit x = false -> x <> "-"%char ->
                                   Py.eqc x c = false).
  { intros x Hx Hminus. destruct (Py.eqc x c) eqn:Hxc; [|done].
    apply eqc_true in Hxc. subst x. destruct Hc as [->|Hc]; [done|congruence]. }
  cbn [Py.startswith]. rewrite !Hhead by done. cbn [andb orb].
  assert (Hw : forall (x : ascii) (w : string), Py.isdigit x = false ->
                 x <> "-"%char -> Py.eqs (String c e') (String x w) = false).
  { intros x w Hx Hminus. unfold Py.eqs. cbn [String.eqb].
    destruct (Ascii.eqb_spec c x) as [->|]; [|done].
    destruct Hc as [->|Hc]; [done|congruence]. }
  rewrite !Hw by done. done.
Qed.

(** X9.  Literals are read before names, and the local scope before the
    global one.  A text that reads as a literal (a quoted string, [true],
    [false], [null], an integer, a float) has an outcome of its own: the
    same in every scope and interpreter state, so a binding of such a name
    is never read, and its evaluation changes nothing.  That outcome is a
    value, except for an integer text that is too long for the host: there
    it is the [ValueError] of [int].  Any other text that a scope binds
    evaluates to its binding, the local one if there is one and the global
    one otherwise, without consulting the host. *)
Theorem literals_then_locals_then_globals :
  forall (host : Host) (fuel : nat) (expr : string),
    (literal (Py.strip expr) = true ->
     exists o : Outcome Value,
       (forall (local_env : Env) (st : Interpreter),
           eval_expression host (S fuel) expr local_env st = (st, o))
       /\ (Re.matches Re.int_literal (Py.strip expr)
           && over_the_digit_limit host (Py.strip expr) = false ->
           exists v : Value, o = Ok v)
       /\ (Re.matches Re.int_literal (Py.strip expr)
           && over_the_digit_limit host (Py.strip expr) = true ->
           o = Raise (IntConversionError (int_max_str_digits host)
                        (Py.count_digits (Py.strip expr)))))
    /\ (literal (Py.strip expr) = false ->
        forall (local_env : Env) (st : Interpreter) (v : Value),
          (local_env ∪ globals st) !! Py.strip expr = Some v ->
          eval_expression host (S fuel) expr local_env st = (st, Ok v)).
Proof.
  intros host fuel expr. cbn [eval_expression]. unfold eval_expression_body. split.
  - intros Hlit.
    destruct (Re.matches Re.int_literal (Py.strip expr)) eqn:Hint.
    + destruct (int_literal_first _ Hint) as (Hs & Ht & Hf & Hn).
      rewrite Hs, Ht, Hf, Hn. unfold int_of_text.
      fold (over_the_digit_limit host (Py.strip expr)). cbn [andb].
      destruct (over_the_digit_limit host (Py.strip expr));
        (eexists; split; [reflexivity|]; split; [intros H|intros H];
         (done || eauto)).
    + unfold literal in Hlit. rewrite Hint in Hlit.
      destruct (_ || _) eqn:Hs in |- *;
        [eexists; split; [reflexivity|]; split; [eauto|done]|].
      rewrite Hs in Hlit. cbn [orb] in Hlit.
      destruct (Py.eqs (Py.strip expr) "true");
        [eexists; split; [reflexivity|]; split; [eauto|done]|].
      destruct (Py.eqs (Py.strip expr) "false");
        [eexists; split; [reflexivity|]; split; [eauto|done]|].
      destruct (Py.eqs (Py.strip expr) "null");
        [eexists; split; [reflexivity|]; split; [eauto|done]|].
      cbn [orb] in Hlit.
      destruct (Re.matches Re.float_literal (Py.strip expr));
        [eexists; split; [reflexivity|]; split; [eauto|done]|].
      done.
  - intros Hlit local_env st v Hv.
    apply literal_false in Hlit as (Hs & Ht & Hf & Hn & Hi & Hfl).
    rewrite Hs, Ht, Hf, Hn, Hi, Hfl. unfold bind, get.
    apply lookup_union_Some_raw in Hv as [Hloc|[Hloc Hglob]].
    + by rewrite Hloc.
    + by rewrite Hloc, Hglob.
Qed.

(** X9 on the literals [true] and [12] and on a name bound in both
    scopes. *)
Lemma literals_then_locals_then_globals_witness :
  (exists o : Outcome Value,
      (forall (local_env : Env) (st : Interpreter),
          eval_expression bare_host 1 "true" local_env st = (st, o))
      /\ (Re.matches Re.int_literal (Py.strip "true")
          && over_the_digit_limit bare_host (Py.strip "true") = false ->
          exists v : Value, o = Ok v)
      /\ (Re.matches Re.int_literal (Py.strip "true")
          && over_the_digit_limit bare_host (Py.strip "true") = true ->
          o = Raise (IntConversionError (int_max_str_digits bare_host)
                       (Py.count_digits (Py.strip "true")))))
  /\ eval_expression bare_host 1 "len" {[ "len" := VInt 1 ]} new_interpreter
     = (new_interpreter, Ok (VInt 1))
  /\ eval_expression bare_host 1 " 12 " {[ "12" := VInt 1 ]} new_interpreter
     = (new_interpreter, Ok (VInt 12)).
Proof.
  split; [|split].
  - exact (proj1 (literals_then_locals_then_globals bare_host 0 "true") eq_refl).
  - exact (proj2 (literals_then_locals_then_globals bare_host 0 "len") eq_refl
             {[ "len" := VInt 1 ]} new_interpreter (VInt 1) eq_refl).
  - reflexivity.
Defined.

(* ================================================================== *)
(** * Further properties of the compiler *)
(* ================================================================== *)

(** ** Line numbers *)

Lemma tokenize_line_advances raw n :
  (tokenize_line raw n).2 = n + (if advances raw then 1 else 0).
Proof.
  unfold advances, tokenize_line. repeat case_match; simplify_eq; simpl; lia.
Qed.

Lemma tokenize_lines_app pre : forall rest n,
  tokenize_lines (pre ++ rest) n
  = tokenize_lines pre n
    ++ tokenize_lines rest (n + Z.of_nat (length (List.filter advances pre))).
Proof.
  induction pre as [|l pre IH]; intros rest n.
  - simpl. by rewrite Z.add_0_r.
  - cbn [app tokenize_lines List.filter].
    pose proof (tokenize_line_advances l n) as Hadv.
    assert (Hn : (tokenize_line l n).2 + Z.of_nat (length (List.filter advances pre))
                 = n + Z.of_nat (length (if advances l then l :: List.filter advances pre
                                         else List.filter advances pre))).
    { rewrite Hadv. destruct (advances l); cbn [length]; lia. }
    destruct (tokenize_line l n) as [[t|] n']; cbn [snd] in Hn;
      rewrite IH, Hn; reflexivity.
Qed.

Lemma filter_length_all {A} (f : A -> bool) (l : list A) :
  length (List.filter f l) = length l <-> forallb f l = true.
Proof.
  induction l as [|a l IH]; simpl; [done|].
  pose proof (List.filter_length_le f l) as Hle.
  destruct (f a); simpl; [rewrite <- IH; lia|]. split; [lia|done].
Qed.

(** X10.  The line that a token records.  [tokenize] advances its line
    counter on the lines that are blank, comments or generic statements
    (the [EXPRESSION] and [STATEMENT] tokens) and on no others, so the
    token of a line records 1 plus the number of such lines before it: at
    most the number of its line, and exactly that number only when no
    class, function, field, [let], assignment, [return], [if] or [else] line
    precedes it. *)
Theorem token_line_counts_the_advancing_lines :
  forall (source : string) (pre : list string) (l : string) (post : list string),
    Py.split Py.newline source = pre ++ l :: post ->
    skipped l = false ->
    exists (t : Token) (rest : list Token),
      tokenize source = tokenize_lines pre 1 ++ t :: rest
      /\ token_line t = 1 + Z.of_nat (length (List.filter advances pre))
      /\ token_line t <= Z.of_nat (length pre) + 1
      /\ (token_line t = Z.of_nat (length pre) + 1 <-> forallb advances pre = true).
Proof.
  intros source pre l post Hsplit Hl. unfold tokenize.
  rewrite Hsplit, tokenize_lines_app. cbn [tokenize_lines].
  destruct (tokenize_line_token l (1 + Z.of_nat (length (List.filter advances pre))) Hl)
    as (t & n' & -> & Hline & _).
  exists t, (tokenize_lines post n'). split; [done|]. split; [done|].
  pose proof (List.filter_length_le advances pre) as Hle.
  split; [lia|]. rewrite <- filter_length_all. lia.
Qed.

(** X10 on a class header, a field and a call on three lines: the call
    on line 3 records line 1. *)
Lemma token_line_counts_the_advancing_lines_witness :
  exists (t : Token) (rest : list Token),
    tokenize (program ["class A {"; "field n = 0"; "f(1)"])
    = tokenize_lines ["class A {"; "field n = 0"] 1 ++ t :: rest
    /\ token_line t
       = 1 + Z.of_nat (length (List.filter advances ["class A {"; "field n = 0"]))
    /\ token_line t <= Z.of_nat (length ["class A {"; "field n = 0"]) + 1
    /\ (token_line t = Z.of_nat (length ["class A {"; "field n = 0"]) + 1
        <-> forallb advances ["class A {"; "field n = 0"] = true).
Proof.
  exact (token_line_counts_the_advancing_lines
           (program ["class A {"; "field n = 0"; "f(1)"])
           ["class A {"; "field n = 0"] "f(1)" [] eq_refl eq_refl).
Defined.

Lemma tokenize_lines_sorted lines : forall n,
  StronglySorted Z.le (map token_line (tokenize_lines lines n))
  /\ Forall (fun t => n <= token_line t < n + Z.of_nat (length lines))
       (tokenize_lines lines n).
Proof.
  induction lines as [|l lines IH]; intros n; [split; constructor|].
  cbn [tokenize_lines length]. destruct (skipped l) eqn:Hl.
  - rewrite (tokenize_line_skipped _ _ Hl). destruct (IH (n + 1)) as [Hs Hb].
    split; [done|]. eapply Forall_impl; [exact Hb|]. intros t Ht. simpl in Ht. lia.
  - destruct (tokenize_line_token l n Hl) as (t & n' & -> & Hline & Hn').
    destruct (IH n') as [Hs Hb]. cbn [map]. split.
    + constructor; [done|]. apply List.Forall_forall. intros z Hz.
      apply in_map_iff in Hz as (t' & <- & Ht').
      rewrite List.Forall_forall in Hb. specialize (Hb _ Ht'). simpl in Hb. lia.
    + constructor; [lia|]. eapply Forall_impl; [exact Hb|].
      intros t' Ht'. simpl in Ht'. lia.
Qed.

(** X11.  The lines that the tokens record never decrease along the
    token list, and each lies between 1 and the number of lines of the
    source. *)
Theorem token_lines_never_decrease :
  forall source : string,
    StronglySorted Z.le (map token_line (tokenize source))
    /\ Forall (fun t =>
                 1 <= token_line t
                 <= Z.of_nat (length (Py.split Py.newline source)))
         (tokenize source).
Proof.
  intros source. unfold tokenize.
  destruct (tokenize_lines_sorted (Py.split Py.newline source) 1) as [Hs Hb].
  split; [done|]. eapply Forall_impl; [exact Hb|]. intros t Ht. simpl in Ht. lia.
Qed.

(** ** Conditionals *)

Lemma tokenize_lines_no_brace_close lines : forall n,
  forallb (fun t => negb (ends_else t)) (tokenize_lines lines n) = true.
Proof.
  induction lines as [|l lines IH]; intros n; [done|]. cbn [tokenize_lines].
  pose proof (tokenize_line_no_brace_close l n) as Hl.
  destruct (tokenize_line l n) as [[t|] n']; [|apply IH].
  cbn [forallb]. rewrite IH, andb_true_r.
  destruct t; try done. by destruct (Hl line).
Qed.

Lemma collect_branch_all stop tokens :
  forallb (fun t => negb (stop t)) tokens = true ->
  collect_branch stop tokens = (tokens, []).
Proof.
  induction tokens as [|t tokens IH]; [done|]. cbn [forallb collect_branch].
  intros H. apply andb_prop in H as [Ht H]. apply negb_true_iff in Ht.
  by rewrite Ht, IH.
Qed.

(** The then branch and what is left: the tokens are the branch followed
    by the rest, no token of the branch ends it, and the rest, if any,
    starts with the token that ended the branch. *)
Lemma collect_branch_parts stop tokens :
  tokens = (collect_branch stop tokens).1 ++ (collect_branch stop tokens).2
  /\ forallb (fun t => negb (stop t)) (collect_branch stop tokens).1 = true
  /\ match (collect_branch stop tokens).2 with
     | t :: _ => stop t = true
     | [] => True
     end.
Proof.
  induction tokens as [|t tokens IH]; [done|]. cbn [collect_branch].
  destruct (stop t) eqn:Ht; [done|].
  destruct (collect_branch stop tokens) as [b r]. simpl in *.
  destruct IH as (-> & Hb & Hr). by rewrite Ht, Hb.
Qed.

Lemma parse_conditional fuel condition line rest s :
  forallb (fun t => negb (ends_else t)) rest = true ->
  exists then_branch else_branch : list Token,
    compiler_parse_loop (S fuel) (IF_STMT condition line :: rest) s
    = Ok (ps_ast (emit (NIf condition then_branch else_branch line) s))
    /\ forallb (fun t => negb (ends_then t)) then_branch = true
    /\ (rest = then_branch /\ else_branch = []
        \/ exists l, rest = then_branch ++ ELSE_STMT l :: else_branch).
Proof.
  intros Hrest. cbn [compiler_parse_loop].
  destruct (collect_branch_parts ends_then rest) as (Hparts & Hthen & Hstop).
  destruct (collect_branch ends_then rest) as [tb rest1]. simpl in *.
  destruct rest1 as [|t rest2].
  - exists tb, []. split; [by destruct fuel|]. split; [done|].
    left. by rewrite app_nil_r in Hparts.
  - rewrite Hparts, forallb_app in Hrest. apply andb_prop in Hrest as [_ Hrest].
    cbn [forallb] in Hrest. apply andb_prop in Hrest as [Ht Hrest2].
    destruct t; try done. rewrite (collect_branch_all _ _ Hrest2). cbn [tail].
    exists tb, rest2. split; [by destruct fuel|]. split; [done|].
    right. by exists line0.
Qed.

(** X12.  A conditional takes the rest of the program.  [parse] ends the
    branches of an [if] at a [BRACE_CLOSE] token, and [tokenize] has no
    case that produces one.  So for the tokens of any lines behind an [if]
    header, from any state of the parser: parsing ends at the conditional
    without a failure; the one node added to the AST is the conditional;
    its then branch is the tokens before the first [else], none of which
    is an [else], and its else branch is every token behind that [else],
    to the end of the input; without an [else] the then branch is all the
    tokens.  No class, method or statement behind the header is parsed as
    such. *)
Theorem conditional_takes_the_rest_of_the_program :
  forall (lines : list string) (n : Z) (fuel : nat) (condition : string)
         (line : Z) (s : ParseState),
    exists then_branch else_branch : list Token,
      compiler_parse_loop (S fuel)
        (IF_STMT condition line :: tokenize_lines lines n) s
      = Ok (ps_ast (emit (NIf condition then_branch else_branch line) s))
      /\ forallb (fun t => negb (ends_then t)) then_branch = true
      /\ (tokenize_lines lines n = then_branch /\ else_branch = []
          \/ exists l : Z,
               tokenize_lines lines n
               = then_branch ++ ELSE_STMT l :: else_branch).
Proof.
  intros lines n fuel condition line s.
  apply parse_conditional, tokenize_lines_no_brace_close.
Qed.

(** ** Code generation *)

Lemma generate_code_conditional condition then_branch else_branch line s :
  generate_code (ps_ast (emit (NIf condition then_branch else_branch line) s))
  = generate_code (ps_ast s).
Proof.
  unfold emit. cbn [ps_ast].
  destruct (current_class s) as [cls|], (current_method s) as [meth|];
    try (unfold generate_code, add_to_global; cbn [ast_classes global_code];
         rewrite omap_app; cbn; by rewrite app_nil_r).
  unfold generate_code, add_to_method. cbn [ast_classes global_code]. f_equal.
  apply map_eq. intros c. rewrite !map_lookup_imap.
  destruct (decide (c = cls)) as [->|Hc]; [|by rewrite lookup_alter_ne].
  rewrite lookup_alter_eq. destruct (ast_classes (ps_ast s) !! cls) as [k|]; [|done].
  cbn. f_equal. unfold generate_class. cbn [c_methods c_fields].
  assert (Hm : generate_method <$>
                 alter (fun m => {| m_name := m_name m; m_params := m_params m;
                                    m_body := m_body m
                                              ++ [NIf condition then_branch else_branch line];
                                    m_line := m_line m |}) meth (c_methods k)
               = generate_method <$> c_methods k).
  { apply map_eq. intros m. rewrite !lookup_fmap.
    destruct (decide (m = meth)) as [->|Hm]; [|by rewrite lookup_alter_ne].
    rewrite lookup_alter_eq. destruct (c_methods k !! meth) as [mi|]; [|done].
    cbn. f_equal. unfold generate_method. cbn [m_params m_body].
    rewrite omap_app. cbn. by rewrite app_nil_r. }
  by rewrite Hm.
Qed.

Lemma generated_before_conditional pre : forall fuel1 fuel2 condition line rest s,
  (length (pre ++ IF_STMT condition line :: rest) <= fuel1)%nat ->
  (length pre <= fuel2)%nat ->
  forallb (fun t => negb (ends_else t)) (pre ++ rest) = true ->
  generated (compiler_parse_loop fuel1 (pre ++ IF_STMT condition line :: rest) s)
  = generated (compiler_parse_loop fuel2 pre s).
Proof.
  induction pre as [|t pre IH]; intros fuel1 fuel2 condition line rest s H1 H2 Hbrace.
  - destruct fuel1 as [|fuel1]; [simpl in H1; lia|]. cbn [app] in *.
    destruct (parse_conditional fuel1 condition line rest s Hbrace)
      as (tb & eb & -> & _ & _).
    unfold generated. rewrite generate_code_conditional. by destruct fuel2.
  - destruct fuel1 as [|fuel1]; [simpl in H1; lia|].
    destruct fuel2 as [|fuel2]; [simpl in H2; lia|].
    cbn [app length forallb] in *. apply andb_prop in Hbrace as [_ Hbrace].
    assert (Hstep : forall s',
               generated (compiler_parse_loop fuel1
                            (pre ++ IF_STMT condition line :: rest) s')
               = generated (compiler_parse_loop fuel2 pre s'))
      by (intros s'; apply IH; [lia|lia|done]).
    destruct t; cbn [compiler_parse_loop]; try apply Hstep.
    + destruct (current_class s); apply Hstep.
    + destruct (current_class s); apply Hstep.
    + destruct (current_method s); [apply Hstep|done].
    + assert (Hall : forallb (fun t => negb (ends_else t))
                       (pre ++ IF_STMT condition line :: rest) = true).
      { rewrite forallb_app in *. apply andb_prop in Hbrace as [-> Hr]. done. }
      destruct (parse_conditional fuel1 condition0 line0 _ s Hall)
        as (tb & eb & Hl & _ & _).
      rewrite forallb_app in Hbrace. apply andb_prop in Hbrace as [Hpre _].
      destruct (parse_conditional fuel2 condition0 line0 _ s Hpre)
        as (tb' & eb' & Hr & _ & _).
      cbn [compiler_parse_loop] in Hl, Hr. rewrite Hl, Hr. unfold generated.
      by rewrite !generate_code_conditional.
Qed.

(** X13.  Nothing from the first conditional on is compiled.  The
    conditional takes every token behind its header into its branches, and
    [generate_code] has no case for a conditional.  So [compile] of a
    source with an [if] header on some line is [compile] of the lines
    before that line: the header, both branches and all the lines that
    follow (statements, methods, classes) leave no trace in the
    executable, not even a failure for a misplaced [return]. *)
Theorem compile_stops_at_the_first_conditional :
  forall (source : string) (pre : list string) (l : string) (post : list string),
    Py.split Py.newline source = pre ++ l :: post ->
    if_line l = true ->
    compile source = generated (compiler_parse (tokenize_lines pre 1))
    /\ (forall source' : string,
           Py.split Py.newline source' = pre -> compile source = compile source').
Proof.
  intros source pre l post Hsplit Hif.
  assert (Hfirst : compile source = generated (compiler_parse (tokenize_lines pre 1))).
  { unfold compile, tokenize. fold (generated (compiler_parse
                                      (tokenize_lines (Py.split Py.newline source) 1))).
    rewrite Hsplit, tokenize_lines_app. cbn [tokenize_lines].
    set (n := 1 + Z.of_nat (length (List.filter advances pre))).
    assert (Hl : exists condition,
               tokenize_line l n = (Some (IF_STMT condition n), n)).
    { unfold if_line in Hif. clear -Hif. unfold tokenize_line in *.
      repeat case_match; simplify_eq; eauto. }
    destruct Hl as (condition & ->). unfold compiler_parse.
    apply generated_before_conditional; [done|done|].
    rewrite forallb_app, !tokenize_lines_no_brace_close. done. }
  split; [done|]. intros source' <-. rewrite Hfirst. reflexivity.
Qed.

(** X13 on a method with a statement, a conditional and a statement
    after it: the executable is that of the first three lines. *)
Lemma compile_stops_at_the_first_conditional_witness :
  compile (program ["class A {"; "fn f() {"; "let x = 1"; "if (x) {"; "return 1";
                    "}"; "return 2"; "}"; "}"])
  = compile (program ["class A {"; "fn f() {"; "let x = 1"]).
Proof.
  exact (proj2 (compile_stops_at_the_first_conditional
                  (program ["class A {"; "fn f() {"; "let x = 1"; "if (x) {";
                            "return 1"; "}"; "return 2"; "}"; "}"])
                  ["class A {"; "fn f() {"; "let x = 1"] "if (x) {"
                  ["return 1"; "}"; "return 2"; "}"; "}"] eq_refl eq_refl)
               (program ["class A {"; "fn f() {"; "let x = 1"]) eq_refl).
Defined.

(** ** Functions outside a class *)

Lemma parse_outside_a_class fuel : forall tokens s,
  (length tokens <= fuel)%nat ->
  current_class s = None -> current_method s = None ->
  forallb (fun t => negb (is_class_def t || is_if_stmt t || is_return t)) tokens
  = true ->
  compiler_parse_loop fuel tokens s
  = Ok {| ast_classes := ast_classes (ps_ast s);
          global_code := global_code (ps_ast s)
                         ++ map NToken (List.filter is_plain tokens);
          imports := imports (ps_ast s) |}.
Proof.
  induction fuel as [|fuel IH]; intros tokens s Hfuel Hc Hm Htokens.
  - destruct tokens; [|simpl in Hfuel; lia]. simpl. rewrite app_nil_r.
    by destruct s as [[]].
  - destruct tokens as [|t tokens]; [simpl; rewrite app_nil_r; by destruct s as [[]]|].
    cbn [forallb length] in *. apply andb_prop in Htokens as [Ht Htokens].
    destruct t; try done; cbn [compiler_parse_loop List.filter is_plain map];
      rewrite ?Hc; try (rewrite IH by (done || lia); done);
      (rewrite IH; [|lia|done|done|done]); unfold emit; rewrite Hc;
      cbn [ps_ast add_to_global ast_classes global_code imports];
      by rewrite <- app_assoc.
Qed.

Lemma parse_return_outside_a_class pre : forall fuel expr line post s,
  (length (pre ++ RETURN expr line :: post) <= fuel)%nat ->
  current_class s = None -> current_method s = None ->
  forallb (fun t => negb (is_class_def t || is_if_stmt t)) pre = true ->
  compiler_parse_loop fuel (pre ++ RETURN expr line :: post) s
  = Raise (KSPLCompileError "Return outside of method").
Proof.
  induction pre as [|t pre IH]; intros fuel expr line post s Hfuel Hc Hm Hpre;
    (destruct fuel as [|fuel]; [simpl in Hfuel; lia|]);
    cbn [app compiler_parse_loop length forallb] in *.
  - by rewrite Hm.
  - apply andb_prop in Hpre as [Ht Hpre].
    destruct t; try done; rewrite ?Hc, ?Hm; try done;
      apply IH; (lia || done).
Qed.

(** X14.  The compiler has no functions outside a class.  Before the
    first class header [parse] drops every function header and field
    declaration, so the statements of a top-level function are parsed as
    global code and a [return] among them is rejected.  For tokens without
    a class header: if they hold no [if] and no [return], the AST has no
    class and its global code is the [let], assignment, expression and
    generic statement tokens in order; and a [return] that no class header
    and no [if] precedes makes [parse], and so [compile], fail with
    ['Return outside of method']. *)
Theorem compiler_has_no_functions_outside_a_class :
  (forall tokens : list Token,
      forallb (fun t => negb (is_class_def t || is_if_stmt t || is_return t)) tokens
      = true ->
      compiler_parse tokens
      = Ok {| ast_classes := ∅;
              global_code := map NToken (List.filter is_plain tokens);
              imports := [] |})
  /\ (forall (pre : list Token) (expr : string) (line : Z) (post : list Token),
         forallb (fun t => negb (is_class_def t || is_if_stmt t)) pre = true ->
         compiler_parse (pre ++ RETURN expr line :: post)
         = Raise (KSPLCompileError "Return outside of method")).
Proof.
  split.
  - intros tokens Htokens. unfold compiler_parse.
    by rewrite parse_outside_a_class.
  - intros pre expr line post Hpre. unfold compiler_parse.
    by apply parse_return_outside_a_class.
Qed.

(** X14 on the tokens of two top-level functions, one with an assignment
    and one with a [return]. *)
Lemma compiler_has_no_functions_outside_a_class_witness :
  compiler_parse (tokenize (program ["fn f(a) {"; "x = a"; "}"]))
  = Ok {| ast_classes := ∅;
          global_code := [NToken (ASSIGNMENT "x" "a" 1); NToken (STATEMENT "}" 1)];
          imports := [] |}
  /\ compile (program ["fn f() {"; "return 1"; "}"])
     = Raise (KSPLCompileError "Return outside of method").
Proof.
  destruct compiler_has_no_functions_outside_a_class as [Hplain Hreturn].
  split.
  - exact (Hplain (tokenize (program ["fn f(a) {"; "x = a"; "}"])) eq_refl).
  - unfold compile.
    change (tokenize (program ["fn f() {"; "return 1"; "}"]))
      with ([FN_DEF "f" [] 1] ++ RETURN "1" 1 :: [STATEMENT "}" 1]).
    by rewrite (Hreturn [FN_DEF "f" [] 1] "1" 1 [STATEMENT "}" 1] eq_refl).
Defined.

(** ** Methods *)

Lemma parse_method_body fuel : forall tokens s cls meth,
  (length tokens <= fuel)%nat ->
  current_class s = Some cls -> current_method s = Some meth ->
  forallb is_body_token tokens = true ->
  compiler_parse_loop fuel tokens s
  = Ok (fold_left (fun a t => add_to_method cls meth (NToken t) a) tokens (ps_ast s)).
Proof.
  induction fuel as [|fuel IH]; intros tokens s cls meth Hfuel Hc Hm Htokens.
  - by destruct tokens; [|simpl in Hfuel; lia].
  - destruct tokens as [|t tokens]; [done|].
    cbn [forallb length] in *. apply andb_prop in Htokens as [Ht Htokens].
    destruct t; try done; cbn [compiler_parse_loop fold_left]; rewrite ?Hm;
      (rewrite (IH _ _ cls meth); [|lia|done|done|done]);
      unfold emit; cbn [ps_ast]; by rewrite Hc, Hm.
Qed.

Lemma add_to_method_body cls meth : forall tokens a k m,
  ast_classes a = {[ cls := k ]} ->
  c_methods k = {[ meth := m ]} ->
  fold_left (fun a t => add_to_method cls meth (NToken t) a) tokens a
  = {| ast_classes :=
         {[ cls := {| c_name := c_name k;
                      c_methods :=
                        {[ meth := {| m_name := m_name m; m_params := m_params m;
                                      m_body := m_body m ++ map NToken tokens;
                                      m_line := m_line m |} ]};
                      c_fields := c_fields k; c_line := c_line k |} ]};
       global_code := global_code a; imports := imports a |}.
Proof.
  induction tokens as [|t tokens IH]; intros a k m Ha Hk.
  - simpl. rewrite app_nil_r. destruct a, k, m. simpl in *. by subst.
  - cbn [fold_left map].
    erewrite IH; [|unfold add_to_method; cbn [ast_classes];
                   rewrite Ha, alter_singleton_eq; reflexivity
                  |cbn [c_methods]; rewrite Hk, alter_singleton_eq; reflexivity].
    cbn. by rewrite <- app_assoc.
Qed.

(** X15.  The executable of a class with one method.  Behind a class
    header and a method header, every [let], assignment, [return],
    expression and generic statement token up to the end of the input is
    parsed into the body of that method (the parser never leaves a method
    but at the next class header), and [compile] turns the body into the
    method's instructions in order: [STORE], [ASSIGN], [RETURN] and [EXEC]
    for the first four kinds and nothing for a generic statement, such as
    the line of a closing brace.  The method is the constructor of the
    class exactly when it is named [init]; there are no global
    instructions. *)
Theorem method_body_compiles_in_order :
  forall (class_name method_name : string) (ps : list string) (l0 l1 : Z)
         (body_tokens : list Token),
    forallb is_body_token body_tokens = true ->
    let compiled :=
      {| x_params := ps;
         instructions := omap (fun t => method_instruction (NToken t)) body_tokens |} in
    generated (compiler_parse
                 (CLASS_DEF class_name l0 :: FN_DEF method_name ps l1 :: body_tokens))
    = Ok {| x_classes :=
              {[ class_name :=
                   {| x_name := class_name;
                      x_methods := {[ method_name := compiled ]};
                      x_fields := ∅;
                      constructor := if decide (method_name = "init")
                                     then Some compiled else None |} ]};
            global_instructions := [];
            metadata := {| version := "1.0"; compiler := "KSPL Compiler" |} |}.
Proof.
  intros class_name method_name ps l0 l1 body_tokens Hbody compiled.
  unfold compiler_parse. cbn [length compiler_parse_loop current_class].
  erewrite parse_method_body; [|done..].
  cbn [ps_ast ast_classes]. rewrite insert_empty, alter_singleton_eq.
  erewrite add_to_method_body; [|reflexivity|cbn [c_methods]; by rewrite insert_empty].
  unfold generated, generate_code.
  cbn [ast_classes global_code omap list_omap c_name c_methods c_fields c_line
       m_name m_params m_body m_line app].
  do 2 f_equal. rewrite <- (insert_empty class_name).
  erewrite map_imap_insert_Some by reflexivity.
  rewrite map_imap_empty, insert_empty. f_equal.
  unfold generate_class. cbn [c_methods c_fields].
  rewrite map_fmap_singleton, lookup_singleton.
  unfold generate_method. cbn [m_params m_body].
  assert (Hbody' : omap method_instruction (map NToken body_tokens)
                   = omap (fun t => method_instruction (NToken t)) body_tokens).
  { clear. induction body_tokens as [|t ts IH]; [done|]. cbn.
    rewrite IH. reflexivity. }
  rewrite Hbody'. reflexivity.
Qed.

(** X15 on the tokens of a class with an [init] method of two
    statements. *)
Lemma method_body_compiles_in_order_witness :
  compile (program ["class A {"; "fn init(x) {"; "self.x = x"; "log(x)"; "}"; "}"])
  = Ok {| x_classes :=
            {[ "A" :=
                 {| x_name := "A";
                    x_methods :=
                      {[ "init" := {| x_params := ["x"];
                                      instructions := [Op.ASSIGN "self.x" "x";
                                                       Op.EXEC "log(x)"] |} ]};
                    x_fields := ∅;
                    constructor :=
                      Some {| x_params := ["x"];
                              instructions := [Op.ASSIGN "self.x" "x";
                                               Op.EXEC "log(x)"] |} |} ]};
          global_instructions := [];
          metadata := {| version := "1.0"; compiler := "KSPL Compiler" |} |}.
Proof.
  exact (method_body_compiles_in_order "A" "init" ["x"] 1 1
           [ASSIGNMENT "self.x" "x" 1; EXPRESSION "log(x)" 1; STATEMENT "}" 2;
            STATEMENT "}" 3] eq_refl).
Defined.

(* ================================================================== *)
(** * Further properties of argument splitting *)
(* ================================================================== *)

Lemma pieces_closed p : forall q d rest,
  closed q d p = true ->
  ArgSpec.pieces q d (p ++ ","%char :: rest) = p :: ArgSpec.pieces None 0 rest
  /\ ArgSpec.pieces q d p = [p].
Proof.
  induction p as [|c p IH]; intros q d rest Hp; cbn [closed] in Hp.
  - apply andb_prop in Hp as [Hq Hd]. apply bool_decide_eq_true in Hq.
    apply Z.eqb_eq in Hd. subst. done.
  - apply andb_prop in Hp as [Hc Hp]. apply negb_true_iff in Hc.
    destruct (IH _ _ rest Hp) as [IH1 IH2].
    cbn [app ArgSpec.pieces]. by rewrite Hc, IH1, IH2.
Qed.

Lemma drop_empty_last_cons p ps :
  ps <> [] -> ArgSpec.drop_empty_last (p :: ps) = p :: ArgSpec.drop_empty_last ps.
Proof. intros Hps. destruct p, ps; done. Qed.

Lemma list_ascii_of_string_app s1 s2 :
  list_ascii_of_string (s1 +:+ s2)
  = list_ascii_of_string s1 ++ list_ascii_of_string s2.
Proof. induction s1 as [|c s1 IH]; simpl; [done|]. by rewrite IH. Qed.

Lemma well_formed_argument_parts a :
  well_formed_argument a = true ->
  list_ascii_of_string a <> [] /\ Py.strip a = a
  /\ closed None 0 (list_ascii_of_string a) = true.
Proof.
  unfold well_formed_argument. intros H.
  apply andb_prop in H as [H Hc]. apply andb_prop in H as [He Hs].
  apply String.eqb_eq in Hs. by destruct a.
Qed.

Lemma split_joined args : forall p,
  forallb well_formed_argument args = true ->
  p <> [] -> closed None 0 p = true ->
  map ArgSpec.argument
    (ArgSpec.drop_empty_last
       (ArgSpec.pieces None 0
          (p ++ flat_map (fun a => ","%char :: " "%char :: list_ascii_of_string a)
                  args)))
  = ArgSpec.argument p :: args.
Proof.
  induction args as [|b args IH]; intros p Hargs Hp Hclosed.
  - cbn [flat_map]. rewrite app_nil_r.
    rewrite (proj2 (pieces_closed p None 0 [] Hclosed)). by destruct p.
  - cbn [forallb flat_map] in *. apply andb_prop in Hargs as [Hb Hargs].
    destruct (well_formed_argument_parts _ Hb) as (Hne & Hstrip & Hcl).
    cbn [app]. rewrite (proj1 (pieces_closed p None 0 _ Hclosed)).
    rewrite drop_empty_last_cons by apply pieces_nonempty.
    cbn [map]. f_equal.
    pose proof (IH (" "%char :: list_ascii_of_string b) Hargs
                  ltac:(done) Hcl) as IH'.
    cbn [app] in IH'. rewrite IH'.
    f_equal. unfold ArgSpec.argument, Py.join_chars.
    cbn [string_of_list_ascii]. rewrite string_of_list_ascii_of_string.
    exact Hstrip.
Qed.

(** X16.  Splitting undoes joining.  For every list of arguments as a
    call is written with (each not empty, without surrounding blanks, its
    parentheses and string literals closed, so that its commas are nested
    or quoted), [split_arguments] of the arguments joined by a comma and
    a blank is the list again: no argument is lost, merged or cut. *)
Theorem split_arguments_inverts_join :
  forall args : list string,
    forallb well_formed_argument args = true ->
    split_arguments (join_arguments args) = args.
Proof.
  intros args Hargs. unfold split_arguments.
  fold (finish (split_loop {| sp_args := []; sp_current := []; sp_depth := 0;
                              sp_string_char := None |}
                  (list_ascii_of_string (join_arguments args)))).
  rewrite finish_split_loop. cbn [sp_args sp_current sp_depth sp_string_char app].
  assert (Hprepend : forall ps, ps <> [] -> prepend [] ps = ps)
    by (by intros [|p ps]).
  rewrite Hprepend by apply pieces_nonempty.
  destruct args as [|a args]; [done|].
  cbn [forallb] in Hargs. apply andb_prop in Hargs as [Ha Hargs].
  destruct (well_formed_argument_parts _ Ha) as (Hne & Hstrip & Hcl).
  assert (Hchars : forall a args,
             list_ascii_of_string (join_arguments (a :: args))
             = list_ascii_of_string a
               ++ flat_map (fun a => ","%char :: " "%char :: list_ascii_of_string a)
                    args).
  { clear. intros a args. revert a.
    induction args as [|b args IH]; intros a; [by rewrite app_nil_r|].
    change (join_arguments (a :: b :: args))
      with (a +:+ String "," (String " " (join_arguments (b :: args)))).
    rewrite list_ascii_of_string_app. f_equal.
    cbn [list_ascii_of_string flat_map app]. by rewrite IH. }
  rewrite Hchars, split_joined by done.
  unfold ArgSpec.argument, Py.join_chars.
  by rewrite string_of_list_ascii_of_string, Hstrip.
Qed.

(** X16 on the three arguments of the call [f(g(1,2), "a,b", 3)]. *)
Lemma split_arguments_inverts_join_witness :
  split_arguments
    (join_arguments ["g(1,2)"; String Py.dquote "a,b" +:+ String Py.dquote ""; "3"])
  = ["g(1,2)"; String Py.dquote "a,b" +:+ String Py.dquote ""; "3"].
Proof.
  exact (split_arguments_inverts_join
           ["g(1,2)"; String Py.dquote "a,b" +:+ String Py.dquote ""; "3"] eq_refl).
Defined.

(* ================================================================== *)
(** * Further properties of classes and method calls *)
(* ================================================================== *)

Lemma scan_block_suffix lines : forall depth acc,
  exists taken, lines = taken ++ (scan_block lines depth acc).1.2.
Proof.
  induction lines as [|l lines IH]; intros depth acc; [by exists []|].
  cbn [scan_block]. destruct (0 <? depth); [|by exists []].
  destruct (IH (depth + Py.count "{" l - Py.count "}" l)
              (if 0 <? depth + Py.count "{" l - Py.count "}" l
               then acc ++ [l] else acc)) as (taken & Htaken).
  exists (l :: taken). cbn [app]. by rewrite <- Htaken.
Qed.

Lemma load_class_loop_without_fields host fuel eval_fuel : forall lines ms fs st,
  (length lines <= fuel)%nat ->
  forallb (fun l => negb (field_line l)) lines = true ->
  exists ms',
    load_class_loop host fuel eval_fuel lines ms fs st = (st, Ok (ms', fs)).
Proof.
  induction fuel as [|fuel IH]; intros lines ms fs st Hfuel Hlines.
  - destruct lines; [by exists ms|simpl in Hfuel; lia].
  - destruct lines as [|l lines]; [by exists ms|].
    cbn [forallb length load_class_loop] in *.
    apply andb_prop in Hlines as [Hl Hlines]. apply negb_true_iff in Hl.
    unfold field_line in Hl. rewrite Hl.
    destruct (Py.startswith (Py.strip l) "fn "); [|apply IH; [lia|done]].
    destruct (Re.match2 Re.fn_header (Py.strip l)) as [[m ps]|];
      [|apply IH; [lia|done]].
    pose proof (scan_block_rest_length lines 1 []) as Hlen.
    destruct (scan_block_suffix lines 1 []) as (taken & Htaken).
    destruct (scan_block lines 1 []) as [[b rest'] d]. simpl in *.
    apply IH; [lia|]. rewrite Htaken, forallb_app in Hlines.
    by apply andb_prop in Hlines as [_ ?].
Qed.

(** X17.  A class declaration without field declarations always loads.
    The first pass of [run] over such a class cannot fail, runs no script
    code and does not consult the host: it appends one class object of
    that name, without fields, to the classes, registers it under its name
    (replacing an older class of the same name) and binds the name in the
    global namespace to a constructor; the instances are untouched.  A call
    of that constructor builds an instance of the class registered under
    the name at the time of the call. *)
Theorem class_without_fields_loads :
  forall (host : Host) (fuel frame : nat) (class_name : string)
         (class_body : list string) (rest : list ParsedStmt) (st : Interpreter),
    forallb (fun l => negb (field_line l)) class_body = true ->
    exists (k : KSPLClass) (st1 : Interpreter),
      load_classes host fuel frame (PClass class_name class_body :: rest) st
      = load_classes host fuel frame rest st1
      /\ klasses st1 = klasses st ++ [k]
      /\ name k = class_name /\ fields k = ∅
      /\ classes st1 = <[class_name := length (klasses st)]> (classes st)
      /\ globals st1 = <[class_name := VConstructor class_name]> (globals st)
      /\ objects st1 = objects st
      /\ (forall (block_rec : list string -> Env -> M Value) (args : list Value),
             call_value host block_rec (VConstructor class_name) args st1
             = new_object host block_rec (length (klasses st)) args st1).
Proof.
  intros host fuel frame class_name class_body rest st Hbody.
  cbn [load_classes]. unfold bind at 1, modify at 1.
  set (st0 := set_frames _ st).
  destruct (load_class_loop_without_fields host (length class_body) fuel
              class_body ∅ ∅ st0 (le_n _) Hbody) as (ms & Hloop).
  unfold bind at 1, load_class, bind at 1. rewrite Hloop.
  unfold bind, get, modify, ret.
  eexists _, _. split; [reflexivity|].
  cbn [klasses classes globals objects set_globals set_classes set_klasses
       set_frames st0 name fields].
  repeat (split; [done|]).
  intros block_rec args. unfold call_value, bind, get.
  cbn [classes set_globals set_classes]. by rewrite lookup_insert_eq.
Qed.

(** X17 on the class [P] of one method. *)
Lemma class_without_fields_loads_witness :
  exists (k : KSPLClass) (st1 : Interpreter),
    load_classes bare_host 1 0 [PClass "P" ["fn scale(a, b) {"; "return b"; "}"]]
      new_interpreter
    = load_classes bare_host 1 0 [] st1
    /\ klasses st1 = klasses new_interpreter ++ [k]
    /\ name k = "P" /\ fields k = ∅
    /\ classes st1 = <["P" := length (klasses new_interpreter)]> (classes new_interpreter)
    /\ globals st1 = <["P" := VConstructor "P"]> (globals new_interpreter)
    /\ objects st1 = objects new_interpreter
    /\ (forall (block_rec : list string -> Env -> M Value) (args : list Value),
           call_value bare_host block_rec (VConstructor "P") args st1
           = new_object bare_host block_rec (length (klasses new_interpreter)) args st1).
Proof.
  exact (class_without_fields_loads bare_host 1 0 "P"
           ["fn scale(a, b) {"; "return b"; "}"] [] new_interpreter eq_refl).
Defined.

(** X18.  A method call [o.m(args)] through the interpreter.  The
    arguments are evaluated first, from left to right, then the receiver
    text before the first dot; of a longer dotted name only the segment
    behind the first dot is used.  When the receiver is an instance that has
    no attribute of the method's name, and none named [call_method] that
    would hide the method of [KSPLObject], the call runs the body of the
    method of its class in the scope of [self] and the parameters, from the
    state the evaluations left; when the class has no such method it fails
    with ["Method '...' not found"], and nothing is run. *)
Theorem method_call_runs_the_method_of_the_class :
  forall (host : Host) (fuel : nat) (expr fn_name args_group obj_text method_name : string)
         (extra : list string) (local_env : Env) (st st1 st2 : Interpreter)
         (args : list Value) (l c : nat) (d : Env) (k : KSPLClass),
    local_env !! Py.strip expr = None ->
    globals st !! Py.strip expr = None ->
    Py.contains "(" (Py.strip expr) = true ->
    Py.endswith_char (Py.strip expr) ")" = true ->
    Re.match2 Re.call (Py.strip expr) = Some (fn_name, args_group) ->
    Py.split "." fn_name = obj_text :: method_name :: extra ->
    eval_call_arguments (eval_expression host fuel) (Py.strip args_group)
      local_env st = (st1, Ok args) ->
    eval_expression host fuel obj_text local_env st1 = (st2, Ok (VObj l)) ->
    getattr host (VObj l) method_name st2 = None ->
    objects st2 !! l = Some d ->
    d !! "call_method" = None ->
    d !! "_klass" = Some (VKlass c) ->
    klasses st2 !! c = Some k ->
    eval_expression host (S fuel) expr local_env st
    = match methods k !! method_name with
      | Some method =>
          execute_block host fuel (body method)
            (bind_params (params method) args {[ "self" := VObj l ]}) st2
      | None => (st2, Raise (MethodNotFoundError method_name))
      end.
Proof.
  intros host fuel expr fn_name args_group obj_text method_name extra local_env
    st st1 st2 args l c d k Hloc Hglob Hopen Hend Hcall Hsplit Hargs Hobj Hattr
    Hd Hhidden Hklass Hk.
  assert (Hdot : Py.contains "." fn_name = true).
  { destruct (Py.contains "." fn_name) eqn:H; [done|].
    rewrite (split_without_separator _ _ H) in Hsplit. done. }
  rewrite eval_expression_call by eauto using call_is_not_literal.
  unfold eval_function_call. rewrite Hcall. unfold bind at 1.
  rewrite Hargs, Hdot, Hsplit. unfold bind at 1. rewrite Hobj.
  unfold bind at 1, get. rewrite Hattr.
  unfold bind at 1, klass_of at 1. rewrite Hd, Hklass, Hk.
  destruct (methods k !! method_name) as [method|] eqn:Hm; [|done].
  unfold bound_call_method, bind, get. rewrite Hd, Hhidden.
  unfold call_method, bind, klass_of. by rewrite Hd, Hklass, Hk, Hm.
Qed.

(** X18 on [p.scale.more(3)] for the instance [p] of the class [P]: the
    method [scale] is called and the segment [more] is ignored; its body
    binds the global [seen] and returns its first argument. *)
Lemma method_call_runs_the_method_of_the_class_witness :
  globals probe_state !! "seen" = None
  /\ eval_expression bare_host 3 "p.scale.more(3)" ∅ probe_state
     = (set_globals (fun g => <["seen" := VNone]> g) probe_state, Ok (VInt 3)).
Proof.
  pose (d := ({[ "_klass" := VKlass 0 ]} : Env)).
  pose (scale := {| params := ["a"; "b"]; body := ["seen = b"; "return a"] |}).
  pose (k := {| name := "P"; methods := {[ "scale" := scale ]}; fields := ∅ |}).
  assert (Hd : objects probe_state !! 0%nat = Some d) by reflexivity.
  assert (Hhidden : d !! "call_method" = None) by reflexivity.
  assert (Hklass : d !! "_klass" = Some (VKlass 0)) by reflexivity.
  assert (Hk : klasses probe_state !! 0%nat = Some k) by reflexivity.
  split; [reflexivity|].
  refine (eq_trans (method_call_runs_the_method_of_the_class bare_host 2
                      "p.scale.more(3)" "p.scale.more" "3" "p" "scale" ["more"] ∅
                      probe_state probe_state probe_state [VInt 3] 0 0 d k
                      eq_refl eq_refl eq_refl eq_refl eq_refl eq_refl eq_refl
                      eq_refl eq_refl Hd Hhidden Hklass Hk) _).
  reflexivity.
Defined.

(** X19.  The failures of an attribute assignment [o.p = expr].  The
    expression is evaluated first, and its effects stay.  If [o] is bound
    in neither scope the statement fails with ["Variable 'o' not found"];
    if [o] is bound to [None], a boolean, a number or a string, it fails
    as Python's [setattr] does on such a value: with the [TypeError] of an
    assignment to [__class__] when [p] is [__class__], and with
    [AttributeError] for that type otherwise.  In all cases the local
    environment and the instances are as the evaluation left them. *)
Theorem attribute_assignment_failures :
  forall (host : Host) (fuel : nat) (stmt target expr obj_name prop : string)
         (local_env : Env) (st st' : Interpreter) (v : Value),
    Py.startswith (Py.strip stmt) "let " = false ->
    Re.match2 Re.assignment (Py.strip stmt) = Some (target, expr) ->
    Py.split "." target = [obj_name; prop] ->
    eval_expression host fuel expr local_env st = (st', Ok v) ->
    ((local_env ∪ globals st') !! obj_name = None ->
     execute_statement host fuel stmt local_env st
     = (st', Raise (KSPLRuntimeError ("Variable '" +:+ obj_name +:+ "' not found"))))
    /\ (forall obj : Value,
           (local_env ∪ globals st') !! obj_name = Some obj ->
           match obj with
           | VNone | VBool _ | VInt _ | VFloat _ | VStr _ => True
           | _ => False
           end ->
           execute_statement host fuel stmt local_env st
           = (st', Raise (if Py.eqs prop "__class__"
                          then ClassAssignmentError (type_name obj)
                          else AttributeError (type_name obj) prop))).
Proof.
  intros host fuel stmt target expr obj_name prop local_env st st' v
    Hlet Hassign Hsplit Heval.
  assert (Hdot : Py.contains "." target = true).
  { destruct (Py.contains "." target) eqn:H; [done|].
    rewrite (split_without_separator _ _ H) in Hsplit. done. }
  split; [intros Hnone|intros obj Hobj Hkind];
    unfold execute_statement, execute_statement_body;
    rewrite (assignment_not_skipped _ _ Hassign), Hlet, Hassign;
    unfold bind at 1; rewrite Heval, Hdot, Hsplit; unfold bind at 1, get.
  - apply lookup_union_None in Hnone as [-> ->]. reflexivity.
  - assert (Hset : assign_property host obj [prop] v st'
                   = (st', Raise (if Py.eqs prop "__class__"
                                  then ClassAssignmentError (type_name obj)
                                  else AttributeError (type_name obj) prop))).
    { unfold assign_property. cbn [removelast List.last resolve_path].
      unfold bind, ret, setattr.
      destruct obj; try done; by destruct (Py.eqs prop "__class__"). }
    apply lookup_union_Some_raw in Hobj as [Hloc|[Hloc Hglob]].
    + rewrite Hloc. unfold bind. by rewrite Hset.
    + rewrite Hloc, Hglob. unfold bind. by rewrite Hset.
Qed.

(** X19 on [o.n = 1] with [o] unbound, and on [x.n = 1] and
    [x.__class__ = 1] with [x] bound to 5. *)
Lemma attribute_assignment_failures_witness :
  execute_statement bare_host 1 "o.n = 1" ∅ new_interpreter
  = (new_interpreter, Raise (KSPLRuntimeError "Variable 'o' not found"))
  /\ execute_statement bare_host 1 "x.n = 1" {[ "x" := VInt 5 ]} new_interpreter
     = (new_interpreter, Raise (AttributeError "int" "n"))
  /\ execute_statement bare_host 1 "x.__class__ = 1" {[ "x" := VInt 5 ]}
       new_interpreter
     = (new_interpreter, Raise (ClassAssignmentError "int")).
Proof.
  split; [|split].
  - exact (proj1 (attribute_assignment_failures bare_host 1 "o.n = 1" "o.n" "1"
                    "o" "n" ∅ new_interpreter new_interpreter (VInt 1)
                    eq_refl eq_refl eq_refl eq_refl) eq_refl).
  - exact (proj2 (attribute_assignment_failures bare_host 1 "x.n = 1" "x.n" "1"
                    "x" "n" {[ "x" := VInt 5 ]} new_interpreter new_interpreter
                    (VInt 1) eq_refl eq_refl eq_refl eq_refl)
             (VInt 5) eq_refl I).
  - exact (proj2 (attribute_assignment_failures bare_host 1 "x.__class__ = 1"
                    "x.__class__" "1" "x" "__class__" {[ "x" := VInt 5 ]}
                    new_interpreter new_interpreter (VInt 1)
                    eq_refl eq_refl eq_refl eq_refl)
             (VInt 5) eq_refl I).
Defined.

(** X20.  How a call [f(args)] of an undotted name is resolved.  The
    arguments are evaluated first; in the state they leave, a callable
    global of that name is called; otherwise, a class registered under the
    name is instantiated.  So a class is still instantiated by its name
    after an assignment has bound the name to a value that is not
    callable, and a callable global hides a class of the same name. *)
Theorem call_resolves_global_then_class :
  forall (host : Host) (fuel : nat) (expr fn_name args_group : string)
         (local_env : Env) (st st1 : Interpreter) (args : list Value),
    local_env !! Py.strip expr = None ->
    globals st !! Py.strip expr = None ->
    Py.contains "(" (Py.strip expr) = true ->
    Py.endswith_char (Py.strip expr) ")" = true ->
    Re.match2 Re.call (Py.strip expr) = Some (fn_name, args_group) ->
    Py.contains "." fn_name = false ->
    eval_call_arguments (eval_expression host fuel) (Py.strip args_group)
      local_env st = (st1, Ok args) ->
    (forall f : Value,
        globals st1 !! fn_name = Some f -> callable host f = true ->
        eval_expression host (S fuel) expr local_env st
        = call_value host (execute_block host fuel) f args st1)
    /\ (forall c : nat,
           (forall f : Value,
               globals st1 !! fn_name = Some f -> callable host f = false) ->
           classes st1 !! fn_name = Some c ->
           eval_expression host (S fuel) expr local_env st
           = new_object host (execute_block host fuel) c args st1).
Proof.
  intros host fuel expr fn_name args_group local_env st st1 args
    Hloc Hglob Hopen Hend Hcall Hbare Hargs.
  split; [intros f Hf Hcallable|intros c Hglobal Hclass];
    rewrite eval_expression_call by eauto using call_is_not_literal;
    unfold eval_function_call; rewrite Hcall; unfold bind at 1;
    rewrite Hargs, Hbare; unfold bind at 1, get.
  - by rewrite Hf, Hcallable.
  - rewrite Hclass. destruct (globals st1 !! fn_name) as [f|] eqn:Hf; [|done].
    by rewrite (Hglobal f).
Qed.

(** X20 on a program that declares the class [P], binds [P] to 5 and
    then calls [P()]. *)
Lemma call_resolves_global_then_class_witness :
  let st := fst (run bare_host 2 (program ["class P {"; "}"; "P = 5"]) new_interpreter) in
  globals st !! "P" = Some (VInt 5)
  /\ eval_expression bare_host 2 "P()" ∅ st
     = new_object bare_host (execute_block bare_host 1) 0 [] st
  /\ snd (eval_expression bare_host 2 "P()" ∅ st) = Ok (VObj 0).
Proof.
  pose (st := fst (run bare_host 2 (program ["class P {"; "}"; "P = 5"])
                     new_interpreter)).
  assert (Hglobal : forall f, globals st !! "P" = Some f -> callable bare_host f = false).
  { intros f Hf. vm_compute in Hf. injection Hf as <-. reflexivity. }
  split; [reflexivity|]. split; [|reflexivity].
  exact (proj2 (call_resolves_global_then_class bare_host 1 "P()" "P" "" ∅ st st []
                  eq_refl eq_refl eq_refl eq_refl eq_refl eq_refl eq_refl)
           0%nat Hglobal eq_refl).
Defined.

(* ================================================================== *)
(** * Further properties of the interpreter's parser *)
(* ================================================================== *)

Lemma contains_lstrip c s : Py.contains c (Py.lstrip s) = true -> Py.contains c s = true.
Proof.
  induction s as [|d s IH]; simpl; [done|].
  destruct (Py.isspace d); [|done]. intros H. rewrite (IH H). by rewrite orb_true_r.
Qed.

Lemma contains_rstrip c s : Py.contains c (Py.rstrip s) = true -> Py.contains c s = true.
Proof.
  induction s as [|d s IH]; simpl; [done|].
  destruct (Py.isspace d && Py.is_empty (Py.rstrip s)); simpl; [done|].
  intros H. apply orb_prop in H as [->|H]; [done|].
  rewrite (IH H). by rewrite orb_true_r.
Qed.

Lemma split_pieces_without_separator sep s :
  Forall (fun piece => Py.contains sep piece = false) (Py.split sep s).
Proof.
  induction s as [|c s IH]; simpl; [by constructor|].
  destruct (Py.eqc c sep) eqn:Hc; [by constructor|].
  destruct (Py.split sep s) as [|piece pieces]; [|inversion IH; subst].
  - constructor; [|done]. simpl. by rewrite eqc_sym, Hc.
  - constructor; [|done]. simpl. by rewrite eqc_sym, Hc.
Qed.

Lemma split_params_names text p :
  p ∈ split_params text -> Py.is_empty p = false /\ Py.contains "," p = false.
Proof.
  unfold split_params. intros Hp. apply list_elem_of_In, filter_In in Hp as [Hp He].
  apply negb_true_iff in He. split; [done|].
  apply in_map_iff in Hp as (piece & <- & Hpiece).
  pose proof (split_pieces_without_separator "," text) as Hall.
  rewrite List.Forall_forall in Hall. specialize (Hall _ Hpiece).
  destruct (Py.contains "," (Py.strip piece)) eqn:H; [|done].
  unfold Py.strip in H. apply contains_rstrip, contains_lstrip in H. congruence.
Qed.

(** X21.  A function definition in the interpreter's parser.  For a
    function header at any index, followed by lines that leave its block
    open and then by a line that brings the brace depth back to zero,
    [parse_function] returns the function with the lines in between as its
    body, blank and comment lines included, and the index behind the
    closing line; the closing line belongs neither to the body nor to what
    follows.  Its parameters are the pieces of the text between the
    parentheses of the header, cut at the commas: none is empty and none
    holds a comma. *)
Theorem function_definition_is_parsed_with_its_lines :
  forall (before : list string) (header fn_name params_text closing : string)
         (pre post : list string),
    Re.match2 Re.fn_header header = Some (fn_name, params_text) ->
    stays_open 1 pre = true ->
    depth_after 1 (pre ++ [closing]) <= 0 ->
    parse_function (before ++ header :: pre ++ closing :: post) (length before)
    = Ok (PFunction fn_name (split_params params_text) pre,
          (length before + length pre + 2)%nat)
    /\ (forall p : string,
           p ∈ split_params params_text ->
           Py.is_empty p = false /\ Py.contains "," p = false).
Proof.
  intros before header fn_name params_text closing pre post Hre Hopen Hclose.
  split; [by apply parse_function_closed|intros p; apply split_params_names].
Qed.

(** X21 on a function of two parameters whose body holds a nested block
    and a comment, behind a statement. *)
Lemma function_definition_is_parsed_with_its_lines_witness :
  parse_function
    (["x = 1"] ++ "fn f(a, b) {" :: ["if a {"; "// note"; "}"] ++ "}" :: ["r = f(1, 2)"])
    (length ["x = 1"])
  = Ok (PFunction "f" ["a"; "b"] ["if a {"; "// note"; "}"], 6%nat).
Proof.
  refine (proj1 (function_definition_is_parsed_with_its_lines ["x = 1"]
                   "fn f(a, b) {" "f" "a, b" "}" ["if a {"; "// note"; "}"]
                   ["r = f(1, 2)"] eq_refl eq_refl _)).
  vm_compute. discriminate.
Defined.
